(** * LLaMA fine-tuning toolkit

    A shallow embedding of the two classes of the repository:
    - [DataProcessor] (src/processors/dataProcessor.js): the curation
      pipeline clean -> augment -> responses -> balance -> convert;
    - [ModelTrainer] (src/trainers/modelTrainer.js): the epoch loop with
      checkpointing, early stopping and the learning-rate schedule.

    JavaScript numbers are IEEE binary64 values and are embedded as the
    kernel's primitive floats; JavaScript strings are sequences of UTF-16
    code units; JavaScript objects are records whose absent properties read
    as [None] (the value [undefined]).  The external collaborators (the
    completion endpoint, the model's training and validation passes) are
    arbitrary functions of the request or epoch number.

    The file has three parts: the embedding of the program, the notions
    used to state its properties, and the properties with their proofs. *)

From Stdlib Require Import String Ascii.
From Stdlib Require Import List Bool Arith PeanoNat Lia NArith ZArith.
From Stdlib Require Import Floats Uint63.
Import ListNotations.

#[local] Set Warnings "-inexact-float".
#[local] Open Scope nat_scope.

(* ================================================================== *)
(** ** Numbers *)

Module Num.

(** An array length or a loop counter read as a Number.  Exact below
    2^53, which bounds every JavaScript array and string length. *)
Definition of_nat (n : nat) : float :=
  PrimFloat.of_uint63 (Uint63.of_Z (Z.of_nat n)).

(** [a < b] and [a > b] on Numbers: IEEE comparisons, false on NaN. *)
Definition lt (a b : float) : bool := PrimFloat.ltb a b.
Definition gt (a b : float) : bool := PrimFloat.ltb b a.

(** [Math.pow base exponent] at the exponents the program passes, which
    are non-negative integers ([2] in the variance, [floor (epoch / 2)]
    in the schedule): the IEEE product of [exponent] copies of [base].
    At exponent 2 this is [base * base], which is what the fdlibm routine
    behind the engines returns; at larger exponents an engine may differ
    from the product in the last bits, and nothing below depends on the
    value there. *)
Fixpoint Math_pow (base : float) (exponent : nat) : float :=
  match exponent with
  | O => 1%float
  | S n => (Math_pow base n * base)%float
  end.

Definition Math_sqrt (x : float) : float := PrimFloat.sqrt x.

End Num.

(* ================================================================== *)
(** ** Strings *)

Module Str.

(** A string is its sequence of UTF-16 code units. *)
Definition t := list N.

Fixpoint lit (s : string) : t :=
  match s with
  | EmptyString => []
  | String a rest => N_of_ascii a :: lit rest
  end.
Arguments lit s%_string.

Definition eqb (a b : t) : bool :=
  if list_eq_dec N.eq_dec a b then true else false.

Definition between (lo hi c : N) : bool := (N.leb lo c && N.leb c hi)%bool.

(** The class [\s] of a regular expression, which is also what [trim]
    strips: WhiteSpace and LineTerminator of ECMAScript. *)
Definition is_space (c : N) : bool :=
  (between 9 13 c            (* TAB LF VT FF CR *)
   || N.eqb c 32             (* SP *)
   || N.eqb c 160            (* NBSP *)
   || N.eqb c 5760           (* U+1680 *)
   || between 8192 8202 c    (* U+2000 .. U+200A *)
   || between 8232 8233 c    (* LS PS *)
   || N.eqb c 8239           (* U+202F *)
   || N.eqb c 8287           (* U+205F *)
   || N.eqb c 12288          (* U+3000 *)
   || N.eqb c 65279)%bool.   (* U+FEFF *)

(** The class [\w]: [A-Za-z0-9_]. *)
Definition is_word (c : N) : bool :=
  (between 48 57 c || between 65 90 c || N.eqb c 95 || between 97 122 c)%bool.

(** The class [[\w\s.,?!-]]; the second [replace] of [cleanData] deletes
    every code unit outside it. *)
Definition permitted (c : N) : bool :=
  (is_word c || is_space c
   || N.eqb c 46 || N.eqb c 44 || N.eqb c 63 || N.eqb c 33 || N.eqb c 45)%bool.

Fixpoint trimStart (s : t) : t :=
  match s with
  | [] => []
  | c :: rest => if is_space c then trimStart rest else s
  end.

Definition trimEnd (s : t) : t := rev (trimStart (rev s)).

(** [s.trim()] *)
Definition trim (s : t) : t := trimEnd (trimStart s).

(** [s.replace(/\s+/g, ' ')]: every maximal run of white space becomes
    one SP.  [in_run] tells that the previous code unit was white space. *)
Fixpoint collapse_from (in_run : bool) (s : t) : t :=
  match s with
  | [] => []
  | c :: rest =>
      if is_space c
      then (if in_run then collapse_from true rest
            else 32%N :: collapse_from true rest)
      else c :: collapse_from false rest
  end.

Definition collapse_spaces (s : t) : t := collapse_from false s.

(** [s.replace(/[^\w\s.,?!-]/g, '')] *)
Definition strip_forbidden (s : t) : t := filter permitted s.

(** [s.split(/\s+/).length]: one more piece than there are maximal runs
    of white space. *)
Fixpoint runs_from (in_run : bool) (s : t) : nat :=
  match s with
  | [] => 0
  | c :: rest =>
      if is_space c
      then (if in_run then runs_from true rest else S (runs_from true rest))
      else runs_from false rest
  end.

Definition split_spaces_length (s : t) : nat := S (runs_from false s).

End Str.

(* ================================================================== *)
(** ** Records *)

Record Metadata := mkMetadata {
  responseLength : nat;
  promptTokens : nat;
  responseTokens : nat
}.

(** One shape for every record of the pipeline.  A property the object does
    not have reads as [None].
    - RawRecord: [prompt], optionally [input] and [output];
    - Curated / Augmented record: [prompt];
    - ResponseRecord: [prompt], [response];
    - TrainingRecord: [instruction], [input], [output], [metadata]. *)
Record Obj := mkObj {
  prompt : option Str.t;
  response : option Str.t;
  instruction : option Str.t;
  input : option Str.t;
  output : option Str.t;
  metadata : option Metadata
}.

Definition emptyObj : Obj := mkObj None None None None None None.

Definition with_prompt (o : Obj) (p : Str.t) : Obj :=
  mkObj (Some p) (response o) (instruction o) (input o) (output o) (metadata o).

(** [{ prompt: p }] *)
Definition PromptRecord (p : Str.t) : Obj := with_prompt emptyObj p.

(** [{ prompt: p, response: r }] *)
Definition ResponseRecord (p : option Str.t) (r : Str.t) : Obj :=
  mkObj p (Some r) None None None None.

(** [{ instruction: p, input: "", output: r, metadata: {...} }] *)
Definition TrainingRecord (p r : Str.t) : Obj :=
  mkObj None None (Some p) (Some []) (Some r)
        (Some (mkMetadata (length r)
                          (Str.split_spaces_length p)
                          (Str.split_spaces_length r))).

(** How a stage may fail: [TypeError] when it reads a property of
    [undefined]; [Dangling] when a location is outside the store, which
    no reference held by a run is. *)
Inductive Error := TypeError | Dangling.

Inductive Result (A : Type) :=
| Ok (a : A)
| Throw (e : Error).
Arguments Ok {A} a.
Arguments Throw {A} e.

(* ================================================================== *)
(** ** DataProcessor on values

    The methods as functions from records to records.  Every record of an
    input list is an object of its own, as [JSON.parse] and the stages
    produce them, so that what [cleanData] assigns to an item shows in the
    list it returns; the store further down keeps track of identity. *)

Module DataProcessor.

(** [this.processedData]; the constructor sets it to [[]] and
    [saveProcessedData] to the records it wrote. *)
Record t := mk { processedData : list Obj }.

Definition new : t := mk [].

Definition saveProcessedData (this : t) (llamaFormatData : list Obj) : t :=
  mk llamaFormatData.

(** [processed.prompt === item.prompt] where [item.prompt] is the string [p]. *)
Definition same_prompt (processed : Obj) (p : Str.t) : bool :=
  match prompt processed with
  | Some q => Str.eqb q p
  | None => false
  end.

Definition normalize (p : Str.t) : Str.t :=
  Str.strip_forbidden (Str.collapse_spaces (Str.trim p)).

(** The callback of [data.filter] in [cleanData]: [None] when it returns
    false, otherwise the item as the callback leaves it. *)
Definition clean_item (this : t) (item : Obj) : option Obj :=
  match prompt item with
  | None => None
  | Some p =>
      if ((length p =? 0) || (length p <? 10))%bool then None
      else
        let isDuplicate :=
          existsb (fun processed => same_prompt processed p) (processedData this) in
        if isDuplicate then None
        else Some (with_prompt item (normalize p))
  end.

Fixpoint cleanData (this : t) (data : list Obj) : list Obj :=
  match data with
  | [] => []
  | item :: rest =>
      match clean_item this item with
      | Some item' => item' :: cleanData this rest
      | None => cleanData this rest
      end
  end.

(** *** getGPT4Responses *)

(** [l.slice(i, j)] for [i <= j] *)
Definition slice {A} (i j : nat) (l : list A) : list A :=
  firstn (j - i) (skipn i l).

Definition batchSize : nat := 5.

Section Responses.

(** The completion endpoint.  [chat k content] is what the [k]-th
    request of a run (counted from 0 in the order the requests are
    issued) yields for the user message [content]: the text of the first
    choice, or [None] when the call throws.  Nothing is assumed of it. *)
Variable chat : nat -> option Str.t -> option Str.t.

(** One [async (item) => ...] callback: the [try] yields the response
    record, the [catch] yields [null]. *)
Definition respond (k : nat) (item : Obj) : option Obj :=
  match chat k (prompt item) with
  | Some content => Some (ResponseRecord (prompt item) content)
  | None => None
  end.

(** [await Promise.all(batch.map(...))]: the results in request order,
    the first request of the batch being the [k]-th of the run. *)
Fixpoint respond_batch (k : nat) (batch : list Obj) : list (option Obj) :=
  match batch with
  | [] => []
  | item :: rest => respond k item :: respond_batch (S k) rest
  end.

(** [rs.filter(r => r !== null)] *)
Fixpoint non_null (rs : list (option Obj)) : list Obj :=
  match rs with
  | [] => []
  | Some r :: rest => r :: non_null rest
  | None :: rest => non_null rest
  end.

(** The [for (let i = 0; i < data.length; i += batchSize)] loop, entered
    at [i] with [responses] collected so far.  [fuel] bounds the number
    of iterations; the pause between batches only takes time. *)
Fixpoint batches (fuel i : nat) (data responses : list Obj) : list Obj :=
  match fuel with
  | O => responses
  | S fuel' =>
      if i <? length data then
        let batch := slice i (i + batchSize) data in
        let batchResponses := respond_batch i batch in
        batches fuel' (i + batchSize) data (responses ++ non_null batchResponses)
      else responses
  end.

Definition getGPT4Responses (data : list Obj) : list Obj :=
  batches (length data) 0 data [].

End Responses.

(** *** balanceDataset *)

(** [item.response.length] *)
Definition response_length (item : Obj) : Result nat :=
  match response item with
  | Some r => Ok (length r)
  | None => Throw TypeError
  end.

(** [data.map(f)] and [data.filter(f)] for a callback that may throw. *)
Fixpoint mapR {A B} (f : A -> Result B) (l : list A) : Result (list B) :=
  match l with
  | [] => Ok []
  | x :: rest =>
      match f x with
      | Throw e => Throw e
      | Ok y =>
          match mapR f rest with
          | Throw e => Throw e
          | Ok ys => Ok (y :: ys)
          end
      end
  end.

Fixpoint filterR {A} (f : A -> Result bool) (l : list A) : Result (list A) :=
  match l with
  | [] => Ok []
  | x :: rest =>
      match f x with
      | Throw e => Throw e
      | Ok b =>
          match filterR f rest with
          | Throw e => Throw e
          | Ok xs => Ok (if b then x :: xs else xs)
          end
      end
  end.

(** [responseLengths.reduce((a, b) => a + b, 0) / responseLengths.length] *)
Definition avgLength (responseLengths : list nat) : float :=
  (fold_left (fun a b => a + Num.of_nat b) responseLengths 0
   / Num.of_nat (length responseLengths))%float.

(** [Math.sqrt(responseLengths.reduce((a, b) =>
      a + Math.pow(b - avgLength, 2), 0) / responseLengths.length)] *)
Definition stdDev (responseLengths : list nat) : float :=
  let avgLength := avgLength responseLengths in
  Num.Math_sqrt
    (fold_left (fun a b => a + Num.Math_pow (Num.of_nat b - avgLength) 2)
               responseLengths 0
     / Num.of_nat (length responseLengths))%float.

(** [length > avgLength - 2 * stdDev && length < avgLength + 2 * stdDev] *)
Definition in_band (avgLength stdDev : float) (length : nat) : bool :=
  (Num.gt (Num.of_nat length) (avgLength - 2 * stdDev)%float
   && Num.lt (Num.of_nat length) (avgLength + 2 * stdDev)%float)%bool.

Definition balanceDataset (data : list Obj) : Result (list Obj) :=
  match mapR response_length data with
  | Throw e => Throw e
  | Ok responseLengths =>
      let avgLength := avgLength responseLengths in
      let stdDev := stdDev responseLengths in
      filterR (fun item =>
                 match response_length item with
                 | Throw e => Throw e
                 | Ok length => Ok (in_band avgLength stdDev length)
                 end) data
  end.

End DataProcessor.

(* ================================================================== *)
(** ** ModelTrainer *)

Module ModelTrainer.

Record TrainingConfig := mkConfig {
  learningRate : float;
  weightDecay : float;
  warmupSteps : nat;
  maxSeqLength : nat;
  gradientClipNorm : float;
  validationSplit : float
}.

Record EpochMetrics := mkMetrics { loss : float; accuracy : float }.

(** What [saveCheckpoint] leaves under [checkpoints/checkpoint-epoch-N]:
    the model snapshot and [metadata.json] (the timestamp is left out). *)
Record Checkpoint := mkCheckpoint {
  ck_epoch : nat;
  ck_metrics : EpochMetrics;
  ck_config : TrainingConfig
}.

(** A trainer and what it has done so far: [optimizer_learningRate] is
    [this.model.optimizer.learningRate], [checkpoints] the checkpoints on
    disk in the order they were saved, [trained] the epochs for which
    [trainEpoch] and [validateEpoch] ran, in order. *)
Record t := mk {
  trainingConfig : TrainingConfig;
  optimizer_learningRate : float;
  checkpoints : list Checkpoint;
  trained : list nat
}.

(** The constructor's configuration. *)
Definition defaultConfig : TrainingConfig :=
  mkConfig 1e-5 0.01 500 1024 1.0 0.1.

(** The constructor followed by [loadModel], which builds the optimizer
    with [tf.train.adam(this.trainingConfig.learningRate)]. *)
Definition new : t := mk defaultConfig (learningRate defaultConfig) [] [].

Definition adjustLearningRate (epoch : nat) (validationLoss : float) (this : t) : t :=
  if warmupSteps (trainingConfig this) <? epoch then
    let newLR :=
      (learningRate (trainingConfig this) * Num.Math_pow 0.95 (epoch / 2))%float in
    mk (trainingConfig this) newLR (checkpoints this) (trained this)
  else this.

Definition saveCheckpoint (epoch : nat) (metrics : EpochMetrics) (this : t) : t :=
  mk (trainingConfig this) (optimizer_learningRate this)
     (checkpoints this ++ [mkCheckpoint epoch metrics (trainingConfig this)])
     (trained this).

(** [trainEpoch] followed by [validateEpoch]: what they do to the model is
    not modelled, only that they ran for [epoch]. *)
Definition run_epoch (epoch : nat) (this : t) : t :=
  mk (trainingConfig this) (optimizer_learningRate this) (checkpoints this)
     (trained this ++ [epoch]).

(** The locals [bestLoss] and [patienceCount] of [trainingLoop]. *)
Record Locals := mkLocals { bestLoss : float; patienceCount : nat }.

Definition maxPatience : nat := 3.

(** How one iteration of the [for] loop ends. *)
Inductive Control :=
| Next (l : Locals) (this : t)    (* falls through to [epoch++] *)
| Break (l : Locals) (this : t).  (* [break] *)

Section Loop.

(** [validateEpoch e] is the metrics that validation reports in epoch
    [e].  Runs in which a collaborator throws leave the loop with that
    exception and are not modelled. *)
Variable validateEpoch : nat -> EpochMetrics.

Definition epoch_body (epoch : nat) (l : Locals) (this : t) : Control :=
  let this := run_epoch epoch this in
  let validMetrics := validateEpoch epoch in
  if Num.lt (loss validMetrics) (bestLoss l) then
    let l := mkLocals (loss validMetrics) 0 in
    let this := saveCheckpoint epoch validMetrics this in
    Next l (adjustLearningRate epoch (loss validMetrics) this)
  else
    let l := mkLocals (bestLoss l) (S (patienceCount l)) in
    if maxPatience <=? patienceCount l then Break l this
    else Next l (adjustLearningRate epoch (loss validMetrics) this).

(** [for (...; epoch <= epochs; epoch++)] with [remaining] iterations
    to go, [remaining = epochs - epoch + 1]. *)
Fixpoint loop (remaining epoch : nat) (l : Locals) (this : t) : Locals * t :=
  match remaining with
  | O => (l, this)
  | S remaining' =>
      match epoch_body epoch l this with
      | Break l' this' => (l', this')
      | Next l' this' => loop remaining' (S epoch) l' this'
      end
  end.

Definition trainingLoop (epochs : nat) (this : t) : Locals * t :=
  loop epochs 1 (mkLocals infinity 0) this.

End Loop.

End ModelTrainer.

(* ================================================================== *)
(** ** DataProcessor on a store of objects

    The same methods with object identity made visible: a record is a
    location of a store, an array is a list of locations, reading a property
    looks the location up and an assignment [item.prompt = ...] overwrites
    the object stored there.  [new] objects are appended to the store. *)

Module InPlace.

Definition loc := nat.
Definition heap := list Obj.

(** A computation over the store that returns or throws. *)
Definition M (A : Type) : Type := heap -> Result A * heap.

Definition ret {A} (a : A) : M A := fun h => (Ok a, h).
Definition throw {A} (e : Error) : M A := fun h => (Throw e, h).
Definition bind {A B} (m : M A) (k : A -> M B) : M B :=
  fun h =>
    match m h with
    | (Ok a, h') => k a h'
    | (Throw e, h') => (Throw e, h')
    end.

Declare Scope store_scope.
Delimit Scope store_scope with store.
Notation "x <- m ;; k" := (bind m (fun x => k))
  (at level 61, m at next level, right associativity) : store_scope.
Notation "m ;;; k" := (bind m (fun _ => k))
  (at level 61, right associativity) : store_scope.
#[local] Open Scope store_scope.

Fixpoint update (l : loc) (o : Obj) (h : heap) : heap :=
  match h, l with
  | [], _ => []
  | _ :: rest, O => o :: rest
  | x :: rest, S l' => x :: update l' o rest
  end.

Definition read (l : loc) : M Obj :=
  fun h =>
    match nth_error h l with
    | Some o => (Ok o, h)
    | None => (Throw Dangling, h)
    end.

Definition write (l : loc) (o : Obj) : M unit :=
  fun h => if l <? length h then (Ok tt, update l o h) else (Throw Dangling, h).

Definition alloc (o : Obj) : M loc := fun h => (Ok (length h), h ++ [o]).

Fixpoint mapM {A B} (f : A -> M B) (l : list A) : M (list B) :=
  match l with
  | [] => ret []
  | x :: rest => y <- f x ;; ys <- mapM f rest ;; ret (y :: ys)
  end.

Fixpoint filterM {A} (f : A -> M bool) (l : list A) : M (list A) :=
  match l with
  | [] => ret []
  | x :: rest =>
      b <- f x ;; xs <- filterM f rest ;; ret (if b then x :: xs else xs)
  end.

Fixpoint someM {A} (f : A -> M bool) (l : list A) : M bool :=
  match l with
  | [] => ret false
  | x :: rest => b <- f x ;; if b then ret true else someM f rest
  end.

(** *** cleanData

    The callback of [data.filter]: it reads [item.prompt], looks for it in
    [this.processedData] and, when it keeps the item, assigns the
    normalised text to [item.prompt]. *)

Definition clean_callback (processedData : list loc) (item : loc) : M bool :=
  o <- read item ;;
  match prompt o with
  | None => ret false
  | Some p =>
      if ((length p =? 0) || (length p <? 10))%bool then ret false
      else
        isDuplicate <-
          someM (fun processed =>
                   q <- read processed ;; ret (DataProcessor.same_prompt q p))
                processedData ;;
        if isDuplicate then ret false
        else write item (with_prompt o (DataProcessor.normalize p)) ;;; ret true
  end.

Definition cleanData (processedData data : list loc) : M (list loc) :=
  filterM (clean_callback processedData) data.

(** *** augmentData *)

Definition temperature : list float := [0.7; 1.0; 1.2]%float.
Definition maxTokens : list nat := [100; 150; 200].

(** The two nested [for ... of] loops over [augmentationConfig], in order. *)
Definition grid : list (float * nat) := list_prod temperature maxTokens.

Section Endpoint.

(** [createPromptVariation]: what the [k]-th variation request of a run
    returns for [prompt], [temperature] and [maxTokens]; [None] is the
    [null] of its [catch]. *)
Variable createPromptVariation : nat -> option Str.t -> float -> nat -> option Str.t.

(** The completion request of [getGPT4Responses], as in
    [DataProcessor.respond]. *)
Variable chat : nat -> option Str.t -> option Str.t.

(** The two inner loops for one record.  [if (augmentedPrompt)] holds
    when the variation is neither [null] nor the empty string. *)
Fixpoint variations (k : nat) (p : option Str.t) (g : list (float * nat))
  : M (list loc) :=
  match g with
  | [] => ret []
  | (temp, maxTokens) :: rest =>
      let augmentedPrompt := createPromptVariation k p temp maxTokens in
      match augmentedPrompt with
      | Some (c :: s) =>
          l <- alloc (PromptRecord (c :: s)) ;;
          ls <- variations (S k) p rest ;;
          ret (l :: ls)
      | _ => variations (S k) p rest
      end
  end.

(** The outer loop of [augmentData], the next variation request being
    the [k]-th. *)
Fixpoint augment_from (k : nat) (data : list loc) : M (list loc) :=
  match data with
  | [] => ret []
  | item :: rest =>
      o <- read item ;;
      vs <- variations k (prompt o) grid ;;
      more <- augment_from (k + length grid) rest ;;
      ret (item :: vs ++ more)
  end.

Definition augmentData (data : list loc) : M (list loc) := augment_from 0 data.

(** *** getGPT4Responses

    As in [DataProcessor], with each response record created in the
    store. *)

Definition respond (k : nat) (item : loc) : M (option loc) :=
  o <- read item ;;
  match chat k (prompt o) with
  | Some content =>
      l <- alloc (ResponseRecord (prompt o) content) ;; ret (Some l)
  | None => ret None
  end.

Fixpoint respond_batch (k : nat) (batch : list loc) : M (list (option loc)) :=
  match batch with
  | [] => ret []
  | item :: rest =>
      r <- respond k item ;; rs <- respond_batch (S k) rest ;; ret (r :: rs)
  end.

Fixpoint non_null (rs : list (option loc)) : list loc :=
  match rs with
  | [] => []
  | Some r :: rest => r :: non_null rest
  | None :: rest => non_null rest
  end.

Fixpoint batches (fuel i : nat) (data responses : list loc) : M (list loc) :=
  match fuel with
  | O => ret responses
  | S fuel' =>
      if i <? length data then
        let batch := DataProcessor.slice i (i + DataProcessor.batchSize) data in
        batchResponses <- respond_batch i batch ;;
        batches fuel' (i + DataProcessor.batchSize) data
                (responses ++ non_null batchResponses)
      else ret responses
  end.

Definition getGPT4Responses (data : list loc) : M (list loc) :=
  batches (length data) 0 data [].

(** *** balanceDataset

    The statistics are those of [DataProcessor]; the result is the list of
    the locations kept. *)

Definition response_length (item : loc) : M nat :=
  o <- read item ;;
  match response o with
  | Some r => ret (length r)
  | None => throw TypeError
  end.

Definition balanceDataset (data : list loc) : M (list loc) :=
  responseLengths <- mapM response_length data ;;
  let avgLength := DataProcessor.avgLength responseLengths in
  let stdDev := DataProcessor.stdDev responseLengths in
  filterM (fun item =>
             length <- response_length item ;;
             ret (DataProcessor.in_band avgLength stdDev length)) data.

(** *** convertToLLaMAFormat

    [data.map(item => ({...}))]: one new training record per item;
    [item.response.length] or [item.prompt.split] throws when the
    property is missing. *)

Definition convert_item (item : loc) : M loc :=
  o <- read item ;;
  match response o, prompt o with
  | Some r, Some p => alloc (TrainingRecord p r)
  | _, _ => throw TypeError
  end.

Definition convertToLLaMAFormat (data : list loc) : M (list loc) :=
  mapM convert_item data.

(** *** processData

    The five stages in sequence; the result is what [saveProcessedData]
    stores in [this.processedData].  The files written afterwards
    (the data set and its statistics) are not modelled. *)
Definition processData (processedData rawData : list loc) : M (list loc) :=
  cleanedData <- cleanData processedData rawData ;;
  augmentedData <- augmentData cleanedData ;;
  gpt4Responses <- getGPT4Responses augmentedData ;;
  balancedData <- balanceDataset gpt4Responses ;;
  llamaFormatData <- convertToLLaMAFormat balancedData ;;
  ret llamaFormatData.

End Endpoint.

End InPlace.

(* ================================================================== *)
(** ** DataProcessor: pacing, conversion and statistics *)

Module Pacing.
Import DataProcessor.

(** What the loop of [getGPT4Responses] does besides collecting: it puts
    [n] requests in flight at once ([Promise.all] over a batch), and it
    waits a second between batches. *)
Inductive Event :=
| InFlight (n : nat)
| Pause.

Section Endpoint.

Variable chat : nat -> option Str.t -> option Str.t.

(** The loop of [DataProcessor.batches] with the events it causes, in
    order: [if (i + batchSize < data.length)] guards the pause. *)
Fixpoint batches_paced (fuel i : nat) (data responses : list Obj) (trace : list Event)
  : list Obj * list Event :=
  match fuel with
  | O => (responses, trace)
  | S fuel' =>
      if i <? length data then
        let batch := slice i (i + batchSize) data in
        let batchResponses := respond_batch chat i batch in
        let trace := trace ++ [InFlight (length batch)] in
        let trace := if i + batchSize <? length data then trace ++ [Pause] else trace in
        batches_paced fuel' (i + batchSize) data
                      (responses ++ non_null batchResponses) trace
      else (responses, trace)
  end.

Definition getGPT4Responses_paced (data : list Obj) : list Obj * list Event :=
  batches_paced (length data) 0 data [] [].

End Endpoint.

End Pacing.

Module Formatting.
Import DataProcessor.

(** The callback of [data.map] in [convertToLLaMAFormat]:
    [item.response.length] throws when there is no response,
    [item.prompt.split] when there is no prompt. *)
Definition convert_record (item : Obj) : Result Obj :=
  match response item, prompt item with
  | Some r, Some p => Ok (TrainingRecord p r)
  | _, _ => Throw TypeError
  end.

Definition convertToLLaMAFormat (data : list Obj) : Result (list Obj) :=
  mapR convert_record data.

(** A distribution object: its own properties, a token count and how many
    records have it.  The program reads and writes the object by key only;
    the list keeps the keys in the order they were first assigned. *)
Definition Distribution := list (nat * nat).

(** [d[k]], [undefined] when [d] has no property [k]. *)
Fixpoint lookup (k : nat) (d : Distribution) : option nat :=
  match d with
  | [] => None
  | (k', c) :: rest => if k' =? k then Some c else lookup k rest
  end.

(** [d[k] = (d[k] || 0) + 1] *)
Fixpoint bump (k : nat) (d : Distribution) : Distribution :=
  match d with
  | [] => [(k, 1)]
  | (k', c) :: rest => if k' =? k then (k', S c) :: rest else (k', c) :: bump k rest
  end.

Record DatasetStats := mkStats {
  totalExamples : nat;
  averagePromptLength : float;
  averageResponseLength : float;
  promptLengthDistribution : Distribution;
  responseLengthDistribution : Distribution
}.

(** The callback of [data.forEach] in [generateDatasetStats];
    [item.metadata.promptTokens] throws when there is no metadata. *)
Definition count_item (stats : DatasetStats) (item : Obj) : Result DatasetStats :=
  match metadata item with
  | None => Throw TypeError
  | Some m =>
      Ok (mkStats (totalExamples stats)
                  (averagePromptLength stats + Num.of_nat (promptTokens m))%float
                  (averageResponseLength stats + Num.of_nat (responseTokens m))%float
                  (bump (promptTokens m) (promptLengthDistribution stats))
                  (bump (responseTokens m) (responseLengthDistribution stats)))
  end.

Fixpoint forEach (stats : DatasetStats) (data : list Obj) : Result DatasetStats :=
  match data with
  | [] => Ok stats
  | item :: rest =>
      match count_item stats item with
      | Throw e => Throw e
      | Ok stats' => forEach stats' rest
      end
  end.

(** [generateDatasetStats] up to the object it serialises; writing the
    file is not modelled. *)
Definition generateDatasetStats (data : list Obj) : Result DatasetStats :=
  match forEach (mkStats (length data) 0 0 [] []) data with
  | Throw e => Throw e
  | Ok stats =>
      Ok (mkStats (totalExamples stats)
                  (averagePromptLength stats / Num.of_nat (length data))%float
                  (averageResponseLength stats / Num.of_nat (length data))%float
                  (promptLengthDistribution stats)
                  (responseLengthDistribution stats))
  end.

End Formatting.

(* ================================================================== *)
(** ** ModelTrainer: split, tokens and the passes over the batches *)

Module Training.
Import ModelTrainer.

(** [Math.floor x] at the Numbers the program passes, which are neither
    negative nor infinite; NaN counts as 0, as [slice] reads it. *)
Definition Math_floor (x : float) : nat :=
  match Prim2SF x with
  | S754_finite false m e => Z.to_nat (Z.shiftl (Zpos m) e)
  | _ => O
  end.

(** [Math.floor(trainingData.length * (1 - this.trainingConfig.validationSplit))] *)
Definition splitIndex (this : ModelTrainer.t) {A} (trainingData : list A) : nat :=
  Math_floor (Num.of_nat (length trainingData)
              * (1 - validationSplit (trainingConfig this)))%float.

(** [trainingData.slice(0, splitIndex)] and [trainingData.slice(splitIndex)] *)
Definition split (this : ModelTrainer.t) {A} (trainingData : list A) : list A * list A :=
  let splitIndex := splitIndex this trainingData in
  (firstn splitIndex trainingData, skipn splitIndex trainingData).

Section Tokens.

(** [random k] is what the [k]-th call of [Math.random] returns. *)
Variable random : nat -> float.

(** [Array.from({ length }, () => Math.floor(Math.random() * 10000))],
    the first call being the [k]-th. *)
Definition tokens_from (k length : nat) : list nat :=
  map (fun j => Math_floor (random (k + j) * 10000)%float) (seq 0 length).

(** The loop of [tokenizeAndPadSequences]: the text built from the item
    is not used; [tokens.slice(0, -1)] goes to the inputs and
    [tokens.slice(1)] to the targets. *)
Fixpoint tokenize_from (this : ModelTrainer.t) (k : nat) (data : list Obj)
  : list (list nat) * list (list nat) :=
  match data with
  | [] => ([], [])
  | item :: rest =>
      let tokens := tokens_from k (maxSeqLength (trainingConfig this)) in
      let (inputTensors, targetTensors) :=
        tokenize_from this (k + maxSeqLength (trainingConfig this)) rest in
      (removelast tokens :: inputTensors, tl tokens :: targetTensors)
  end.

Definition tokenizeAndPadSequences (this : ModelTrainer.t) (data : list Obj)
  : list (list nat) * list (list nat) :=
  tokenize_from this 0 data.

End Tokens.

(** The running sums of a pass and the calls of [logTrainingProgress]
    made so far, each with its arguments. *)
Record Pass := mkPass {
  totalLoss : float;
  totalAccuracy : float;
  batchCount : nat;
  progress : list (nat * nat * EpochMetrics)
}.



(** The callback of [validateEpoch]: the same sums, nothing logged. *)
Definition validate_batch (p : Pass) (evaluation : float * float) : Pass :=
  mkPass (totalLoss p + fst evaluation)%float
         (totalAccuracy p + snd evaluation)%float
         (S (batchCount p)) (progress p).

Definition validateEpoch (evaluations : list (float * float)) : EpochMetrics :=
  let p := fold_left validate_batch evaluations (mkPass 0 0 0 []) in
  mkMetrics (totalLoss p / Num.of_nat (batchCount p))%float
            (totalAccuracy p / Num.of_nat (batchCount p))%float.

End Training.

(* ================================================================== *)
(** * Vocabulary of the properties

    The notions in which the properties below are stated, and the inputs
    of their examples. *)

Module Text.
Import Str.

(** A string that neither starts nor ends with white space. *)
Definition starts_clean (s : t) : bool :=
  match s with
  | [] => true
  | c :: _ => negb (is_space c)
  end.

Definition trimmed (s : t) : bool := (starts_clean s && starts_clean (rev s))%bool.

End Text.

Module Cleaning.
Import DataProcessor.

(** The first test of the callback: the prompt is there and has at least
    10 code units. *)
Definition long_enough (o : Obj) : bool :=
  match prompt o with
  | Some p => negb ((length p =? 0) || (length p <? 10))
  | None => false
  end.

(** The record after [item.prompt = item.prompt.trim()...]. *)
Definition cleaned (o : Obj) : Obj :=
  match prompt o with
  | Some p => with_prompt o (normalize p)
  | None => o
  end.

(** No record of [this.processedData] has a [prompt] property.  So it is
    after the constructor, and after [saveProcessedData], which stores
    training records ([instruction], [input], [output], [metadata]). *)
Definition no_stored_prompt (this : DataProcessor.t) : Prop :=
  forall o, In o (processedData this) -> prompt o = None.

Definition duplicated : list Obj :=
  [PromptRecord (Str.lit "hello world!"); PromptRecord (Str.lit "hello world!")].


End Cleaning.

Module Band.
Import DataProcessor.

(** The length of the response of a record that has one. *)
Definition len (o : Obj) : nat :=
  match response o with
  | Some r => length r
  | None => 0
  end.


(** A response of [n] code units. *)
Definition reply (n : nat) : Obj :=
  ResponseRecord (Some (Str.lit "What is the answer?")) (repeat 97%N n).


(** [n] records whose responses all have [l] code units. *)
Definition uniform (n l : nat) : list Obj := repeat (reply l) n.

(** The stage returned, and returned no record. *)
Definition returns_nothing (r : Result (list Obj)) : bool :=
  match r with
  | Ok [] => true
  | _ => false
  end.

End Band.

Module Answering.

Section Endpoint.

Variable chat : nat -> option Str.t -> option Str.t.

(** The records of [data] paired with their positions, from [k] on. *)
Definition indexed_from (k : nat) (data : list Obj) : list (nat * Obj) :=
  combine (seq k (length data)) data.

(** The request for the record at position [k] succeeded. *)
Definition succeeded (ki : nat * Obj) : bool :=
  match chat (fst ki) (prompt (snd ki)) with
  | Some _ => true
  | None => false
  end.

(** The response record of the record at position [k]: its own prompt
    and the text the endpoint returned for it. *)
Definition answered (ki : nat * Obj) : Obj :=
  ResponseRecord (prompt (snd ki))
                 (match chat (fst ki) (prompt (snd ki)) with
                  | Some content => content
                  | None => []
                  end).

End Endpoint.

End Answering.

Module Patience.
Import ModelTrainer.

Section Run.

Variable validateEpoch : nat -> EpochMetrics.

(** The lowest validation loss of the epochs [1 .. n], starting from
    [Infinity]: the best loss seen once epoch [n] is over. *)
Fixpoint best_after (n : nat) : float :=
  match n with
  | O => infinity
  | S k =>
      if Num.lt (loss (validateEpoch (S k))) (best_after k)
      then loss (validateEpoch (S k))
      else best_after k
  end.

(** The validation loss of epoch [e] is strictly below the best loss
    seen in the epochs before it. *)
Definition improves (e : nat) : bool :=
  match e with
  | O => false
  | S k => Num.lt (loss (validateEpoch (S k))) (best_after k)
  end.

(** The number of epochs in a row, ending with epoch [n], that did not
    improve. *)
Fixpoint stalled (n : nat) : nat :=
  match n with
  | O => 0
  | S k => if improves (S k) then 0 else S (stalled k)
  end.

Definition checkpoint_of (config : TrainingConfig) (e : nat) : Checkpoint :=
  mkCheckpoint e (validateEpoch e) config.

(** The locals once epoch [n] is over. *)
Definition locals_after (n : nat) : Locals := mkLocals (best_after n) (stalled n).

End Run.

(** The validation losses of the specification's example; any later epoch
    would report 0.5, an improvement. *)
Definition synthetic (e : nat) : EpochMetrics :=
  mkMetrics (nth (e - 1) [1.0; 0.9; 0.95; 0.96; 0.97]%float 0.5%float) 0%float.

End Patience.

Module Store.
Import InPlace.

(** Every object of [h] is still in [h'], at its location and as it was;
    [h'] may hold new objects after them. *)
Definition extends (h h' : heap) : Prop := exists fresh, h' = h ++ fresh.

(** A computation that only appends to the store. *)
Definition grows {A} (m : M A) : Prop := forall h, extends h (snd (m h)).

(** A computation that leaves the store as it is. *)
Definition reads_only {A} (m : M A) : Prop := forall h, snd (m h) = h.

(** The object at [l], and the objects a list of locations stands for. *)
Definition get (h : heap) (l : loc) : Obj := nth l h emptyObj.
Definition snapshot (h : heap) (ls : list loc) : list Obj := map (get h) ls.

(** Every location of [ls] holds an object of [h]. *)
Definition valid (h : heap) (ls : list loc) : Prop := forall l, In l ls -> l < length h.

(** The result of a computation on locations, read as records of [h]. *)
Definition on_result {A B} (f : A -> B) (r : Result A) : Result B :=
  match r with
  | Ok a => Ok (f a)
  | Throw e => Throw e
  end.

Definition valid_results (h : heap) (rs : list (option loc)) : Prop :=
  valid h (non_null rs).

(** Two raw records as [loadRawData] leaves them. *)
Definition loaded : heap :=
  [PromptRecord (Str.lit "  hello world  "); PromptRecord (Str.lit "short")].

End Store.

Module Curation.
Import DataProcessor.

(** Every white-space code unit of [s] is the plain space U+0020. *)
Definition plain_spaces_only (s : Str.t) : bool :=
  forallb (fun c => negb (Str.is_space c) || N.eqb c 32)%bool s.

(** Some record of [this.processedData] has the prompt [p]. *)
Definition stored (this : DataProcessor.t) (p : Str.t) : bool :=
  existsb (fun processed => same_prompt processed p) (processedData this).

(** The callback of [cleanData] returns true on [o]. *)
Definition accepted (this : DataProcessor.t) (o : Obj) : bool :=
  match prompt o with
  | Some p => (10 <=? length p) && negb (stored this p)
  | None => false
  end%bool.

(** Some records with and without a response. *)
Definition mixed : list Obj :=
  [ResponseRecord (Some (Str.lit "first question")) (Str.lit "a short answer");
   ResponseRecord None (Str.lit "an answer to nothing");
   ResponseRecord (Some (Str.lit "second question")) (Str.lit "another, longer answer")].

End Curation.

Module Batching.
Import Pacing.

(** The sizes of the batches into which [n] records fall: fives, and what
    is left over. *)
Definition batch_sizes (n : nat) : list nat :=
  repeat 5 (n / 5) ++ (if n mod 5 =? 0 then [] else [n mod 5]).

(** One group of requests per batch, and a pause between two batches. *)
Fixpoint spaced (sizes : list nat) : list Event :=
  match sizes with
  | [] => []
  | m :: rest =>
      match rest with
      | [] => [InFlight m]
      | _ :: _ => InFlight m :: Pause :: spaced rest
      end
  end.

Definition is_pause (e : Event) : bool :=
  match e with
  | Pause => true
  | InFlight _ => false
  end.

End Batching.

Module Tally.
Import Formatting.

(** A record [convertToLLaMAFormat] can format: it has a response and a
    prompt. *)
Definition complete (o : Obj) : bool :=
  match response o, prompt o with
  | Some _, Some _ => true
  | _, _ => false
  end.

(** [o] is the training record of [i]. *)
Definition formats (i o : Obj) : Prop :=
  instruction o = prompt i
  /\ output o = response i
  /\ input o = Some []
  /\ prompt o = None
  /\ response o = None
  /\ exists m, metadata o = Some m
       /\ Some (responseLength m) = option_map (@length N) (response i)
       /\ Some (promptTokens m) = option_map Str.split_spaces_length (prompt i)
       /\ Some (responseTokens m) = option_map Str.split_spaces_length (response i)
       /\ 1 <= promptTokens m
       /\ 1 <= responseTokens m.

(** [d[k] || 0] *)
Definition tally (k : nat) (d : Distribution) : nat :=
  match lookup k d with
  | Some c => c
  | None => 0
  end.

(** The sum of the counts of a distribution. *)
Definition total (d : Distribution) : nat := list_sum (map snd d).

(** How many records of [data] have the token count [k], read by [key]. *)
Definition occurrences (key : Metadata -> nat) (k : nat) (data : list Obj) : nat :=
  length (filter (fun o => match metadata o with
                           | Some m => key m =? k
                           | None => false
                           end) data).

(** How many records of [data] have a text, read by [field], that
    [split(/\s+/)] cuts into [k] pieces. *)
Definition pieces (field : Obj -> option Str.t) (k : nat) (data : list Obj) : nat :=
  length (filter (fun o => match field o with
                           | Some s => Str.split_spaces_length s =? k
                           | None => false
                           end) data).

Definition has_metadata (o : Obj) : bool :=
  match metadata o with
  | Some _ => true
  | None => false
  end.

(** What the distributions of [stats] are with respect to the records
    [seen] so far. *)
Definition counted (key : Metadata -> nat) (d : Distribution) (seen : list Obj) : Prop :=
  (forall k, lookup k d
             = if occurrences key k seen =? 0 then None
               else Some (occurrences key k seen))
  /\ total d = length (filter has_metadata seen)
  /\ NoDup (map fst d).

End Tally.

Module FanOut.
Import InPlace.

Section Endpoint.

Variable createPromptVariation : nat -> option Str.t -> float -> nat -> option Str.t.

(** The variations of [p] that pass [if (augmentedPrompt)], the first
    request being the [k]-th. *)
Fixpoint successes (k : nat) (p : option Str.t) (g : list (float * nat))
  : list Str.t :=
  match g with
  | [] => []
  | (temp, maxTokens) :: rest =>
      match createPromptVariation k p temp maxTokens with
      | Some (c :: s) => (c :: s) :: successes (S k) p rest
      | _ => successes (S k) p rest
      end
  end.

(** [augmentData] on records: each record, then a record for each of its
    variations. *)
Fixpoint augmentData_values (k : nat) (data : list Obj) : list Obj :=
  match data with
  | [] => []
  | o :: rest =>
      o :: map PromptRecord (successes k (prompt o) grid)
        ++ augmentData_values (k + length grid) rest
  end.

End Endpoint.

(** The location held an object before the stage ran on [h]. *)
Definition old (h : heap) (l : loc) : bool := l <? length h.

(** A record with nothing but a non-empty prompt. *)
Definition bare_prompt (o : Obj) : Prop := exists c s, o = PromptRecord (c :: s).

End FanOut.

Module Run.
Import InPlace.

(** The record has a prompt. *)
Definition prompted (o : Obj) : bool :=
  match prompt o with
  | Some _ => true
  | None => false
  end.

Definition is_training_record (o : Obj) : Prop := exists p r, o = TrainingRecord p r.

(** An endpoint that answers the first variation request with the prompt
    itself and fails on every other one. *)
Definition echo (k : nat) (p : option Str.t) (temp : float) (maxTokens : nat)
  : option Str.t :=
  if k =? 0 then p else None.

(** An endpoint whose [k]-th completion has [k + 1] code units. *)
Definition reply_k (k : nat) (p : option Str.t) : option Str.t :=
  Some (repeat 97%N (S k)).

End Run.

Module Improvement.
Import ModelTrainer.

(** The loss of every checkpoint is strictly below the loss of the one
    saved before it, and the first is below [best]. *)
Fixpoint descending_from (best : float) (cs : list Checkpoint) : bool :=
  match cs with
  | [] => true
  | c :: rest =>
      Num.lt (loss (ck_metrics c)) best
      && descending_from (loss (ck_metrics c)) rest
  end.

(** The epochs of the checkpoints go up, from [e] on. *)
Fixpoint ascending_from (e : nat) (cs : list Checkpoint) : bool :=
  match cs with
  | [] => true
  | c :: rest => (e <=? ck_epoch c) && ascending_from (S (ck_epoch c)) rest
  end.

(** The loss of the checkpoint saved last, [best] when there is none. *)
Definition last_loss (best : float) (cs : list Checkpoint) : float :=
  fold_left (fun _ c => loss (ck_metrics c)) cs best.

(** No epoch up to [epochs] reports a loss below [Infinity]. *)
Definition never_below_infinity (validateEpoch : nat -> EpochMetrics) (epochs : nat)
  : Prop :=
  forall e, 1 <= e <= epochs -> Num.lt (loss (validateEpoch e)) infinity = false.

(** A validation that reports the same loss in every epoch. *)
Definition steady (e : nat) : EpochMetrics := mkMetrics 1 0.

End Improvement.

Module Progress.
Import ModelTrainer Training.


End Progress.

(* ================================================================== *)
(** * Properties *)

(** ** Text normalisation *)

Module StrFacts.
Import Str Text.

Lemma starts_clean_trimStart s : starts_clean (trimStart s) = true.
Proof.
  induction s as [|c s IH]; simpl; [reflexivity|].
  destruct (is_space c) eqn:E; [exact IH|]. simpl. now rewrite E.
Qed.

Lemma trimStart_fixed s : starts_clean s = true -> trimStart s = s.
Proof.
  destruct s as [|c s]; simpl; [reflexivity|].
  intro H. apply negb_true_iff in H. now rewrite H.
Qed.

Lemma trimStart_snoc s c :
  is_space c = false -> trimStart (s ++ [c]) = trimStart s ++ [c].
Proof.
  intro Hc. induction s as [|d s IH]; simpl.
  - now rewrite Hc.
  - destruct (is_space d); [exact IH | reflexivity].
Qed.

Lemma trimEnd_cons c s :
  is_space c = false -> trimEnd (c :: s) = c :: trimEnd s.
Proof.
  intro Hc. unfold trimEnd. simpl rev at 2.
  rewrite trimStart_snoc by assumption.
  now rewrite rev_app_distr.
Qed.

Lemma trimmed_trim s : trimmed (trim s) = true.
Proof.
  unfold trimmed, trim. apply andb_true_iff. split.
  - pose proof (starts_clean_trimStart s) as H.
    destruct (trimStart s) as [|c u]; [reflexivity|].
    simpl in H. apply negb_true_iff in H.
    rewrite trimEnd_cons by assumption. simpl. now rewrite H.
  - unfold trimEnd. rewrite rev_involutive. apply starts_clean_trimStart.
Qed.

Lemma trim_fixed s : trimmed s = true -> trim s = s.
Proof.
  unfold trimmed, trim, trimEnd. intro H.
  apply andb_true_iff in H. destruct H as [H1 H2].
  rewrite (trimStart_fixed s H1), (trimStart_fixed (rev s) H2).
  apply rev_involutive.
Qed.

Lemma collapse_from_snoc b s c :
  is_space c = false ->
  collapse_from b (s ++ [c]) = collapse_from b s ++ [c].
Proof.
  intro Hc. revert b. induction s as [|d s IH]; intro b; simpl.
  - now rewrite Hc.
  - destruct (is_space d); [destruct b|]; now rewrite IH.
Qed.

Lemma trimmed_collapse s :
  trimmed s = true -> trimmed (collapse_spaces s) = true.
Proof.
  unfold trimmed, collapse_spaces. intro H.
  apply andb_true_iff in H. destruct H as [H1 H2].
  apply andb_true_iff. split.
  - destruct s as [|c s]; [reflexivity|]. simpl in *.
    apply negb_true_iff in H1. rewrite H1. simpl. now rewrite H1.
  - destruct (rev s) as [|d u] eqn:E; simpl in H2.
    + apply (f_equal (@rev N)) in E. rewrite rev_involutive in E.
      subst s. reflexivity.
    + apply (f_equal (@rev N)) in E. rewrite rev_involutive in E.
      simpl in E. subst s. apply negb_true_iff in H2.
      rewrite collapse_from_snoc by assumption.
      rewrite rev_app_distr. simpl. now rewrite H2.
Qed.

Lemma collapse_from_idem b s :
  collapse_from b (collapse_from b s) = collapse_from b s.
Proof.
  revert b. induction s as [|c s IH]; intro b; simpl; [reflexivity|].
  destruct (is_space c) eqn:Ec.
  - destruct b; [apply IH|]. simpl. now rewrite IH.
  - simpl. rewrite Ec. now rewrite IH.
Qed.

Lemma permitted_trimStart s :
  forallb permitted s = true -> forallb permitted (trimStart s) = true.
Proof.
  induction s as [|c s IH]; simpl; [reflexivity|].
  intro H. destruct (is_space c); [|exact H].
  apply andb_true_iff in H. now apply IH.
Qed.

Lemma permitted_rev s :
  forallb permitted s = true -> forallb permitted (rev s) = true.
Proof.
  rewrite !forallb_forall. intros H c Hc. apply H. now apply in_rev.
Qed.

Lemma permitted_trim s :
  forallb permitted s = true -> forallb permitted (trim s) = true.
Proof.
  intro H. unfold trim, trimEnd.
  now apply permitted_rev, permitted_trimStart, permitted_rev, permitted_trimStart.
Qed.

Lemma permitted_collapse b s :
  forallb permitted s = true -> forallb permitted (collapse_from b s) = true.
Proof.
  revert b. induction s as [|c s IH]; intro b; simpl; [reflexivity|].
  intro H. apply andb_true_iff in H. destruct H as [Hc Hs].
  destruct (is_space c); [destruct b|]; simpl; rewrite ?Hc; now rewrite IH.
Qed.

Lemma strip_permitted s :
  forallb permitted s = true -> strip_forbidden s = s.
Proof.
  unfold strip_forbidden. induction s as [|c s IH]; simpl; [reflexivity|].
  intro H. apply andb_true_iff in H. destruct H as [Hc Hs].
  rewrite Hc. now rewrite IH.
Qed.

(** On a prompt made of permitted code units only, normalising twice is
    normalising once. *)
Lemma normalize_idem p :
  forallb permitted p = true ->
  DataProcessor.normalize (DataProcessor.normalize p) = DataProcessor.normalize p.
Proof.
  intro H. unfold DataProcessor.normalize.
  assert (Hc : forallb permitted (collapse_spaces (trim p)) = true)
    by now apply permitted_collapse, permitted_trim.
  rewrite (strip_permitted _ Hc).
  rewrite (trim_fixed (collapse_spaces (trim p)))
    by apply trimmed_collapse, trimmed_trim.
  unfold collapse_spaces at 1 2. rewrite collapse_from_idem.
  fold (collapse_spaces (trim p)). now rewrite strip_permitted.
Qed.

End StrFacts.

(* ================================================================== *)
(** ** cleanData *)

Module Clean.
Import DataProcessor Cleaning.


Lemma isDuplicate_false this p :
  no_stored_prompt this ->
  existsb (fun processed => same_prompt processed p) (processedData this) = false.
Proof.
  intro H. unfold no_stored_prompt in H.
  induction (processedData this) as [|q l IH]; simpl; [reflexivity|].
  unfold same_prompt at 1. rewrite (H q) by now left.
  apply IH. intros o Ho. apply H. now right.
Qed.

Lemma clean_item_without_stored_prompts this item :
  no_stored_prompt this ->
  clean_item this item = if long_enough item then Some (cleaned item) else None.
Proof.
  intro H. unfold clean_item, long_enough, cleaned.
  destruct (prompt item) as [p|]; [|reflexivity].
  destruct ((length p =? 0) || (length p <? 10))%bool; [reflexivity|].
  now rewrite isDuplicate_false.
Qed.

(** With no stored prompt the duplicate test never fires: [cleanData]
    keeps every record with a long enough prompt and normalises it. *)
Lemma cleanData_without_stored_prompts this data :
  no_stored_prompt this ->
  cleanData this data = map cleaned (filter long_enough data).
Proof.
  intro H. induction data as [|item rest IH]; simpl; [reflexivity|].
  rewrite clean_item_without_stored_prompts by assumption.
  destruct (long_enough item); simpl; now rewrite IH.
Qed.

Lemma with_prompt_twice o p q : with_prompt (with_prompt o p) q = with_prompt o q.
Proof. reflexivity. Qed.

(** C3 (the code departs from the claim).  On a fresh [DataProcessor]
    an input of two records with the same prompt ["hello world!"] comes
    out of [cleanData] with both records, and both prompts still equal:
    the duplicate test reads [this.processedData] only, which is empty and
    to which [cleanData] never adds.  The same holds on the store, where
    both locations are returned, and after [saveProcessedData] has stored
    the training record made from that very prompt, which has an
    [instruction] and no [prompt]. *)
Theorem cleanData_keeps_duplicates :
  cleanData new duplicated = duplicated
  /\ map prompt (cleanData new duplicated)
     = [Some (Str.lit "hello world!"); Some (Str.lit "hello world!")]
  /\ InPlace.cleanData [] [0; 1] duplicated = (Ok [0; 1], duplicated)
  /\ cleanData (saveProcessedData new
                  [TrainingRecord (Str.lit "hello world!") (Str.lit "Hello!")])
               duplicated
     = duplicated.
Proof. repeat split; vm_compute; reflexivity. Qed.

(** C6 (the code departs from the claim).  The length test reads the
    prompt before it is trimmed and stripped: the 11 code units of
    ["   hello   "] pass it and the record comes out with the prompt
    ["hello"], 5 code units; ten forbidden characters come out as the
    empty prompt. *)
Theorem cleanData_outputs_short_prompt :
  cleanData new [PromptRecord (Str.lit "   hello   ")] = [PromptRecord (Str.lit "hello")]
  /\ length (Str.lit "hello") = 5
  /\ cleanData new [PromptRecord (Str.lit "@@@@@@@@@@")] = [PromptRecord []].
Proof. repeat split; vm_compute; reflexivity. Qed.




End Clean.

(* ================================================================== *)
(** ** balanceDataset *)

Module Balance.
Import DataProcessor Band.

Lemma response_length_present o :
  response o <> None -> response_length o = Ok (len o).
Proof.
  unfold response_length, len. destruct (response o); [reflexivity|congruence].
Qed.

Lemma mapR_response_length data :
  (forall o, In o data -> response o <> None) ->
  mapR response_length data = Ok (map len data).
Proof.
  induction data as [|o rest IH]; intro H; simpl; [reflexivity|].
  rewrite response_length_present by (apply H; now left).
  rewrite IH by (intros q Hq; apply H; now right). reflexivity.
Qed.

Lemma filterR_band avg sd data :
  (forall o, In o data -> response o <> None) ->
  filterR (fun item =>
             match response_length item with
             | Throw e => Throw e
             | Ok length => Ok (in_band avg sd length)
             end) data
  = Ok (filter (fun item => in_band avg sd (len item)) data).
Proof.
  induction data as [|o rest IH]; intro H; simpl; [reflexivity|].
  rewrite response_length_present by (apply H; now left).
  rewrite IH by (intros q Hq; apply H; now right). reflexivity.
Qed.

(** C2 (the code departs from the claim).  Three records whose responses
    all have 5 code units have mean 5 and standard deviation 0; both
    bounds of the band are 5 and the tests [5 > 5] and [5 < 5] fail, so
    [balanceDataset] returns no record.  A single record fares the same,
    and so does every list of 1 to 24 records of a common length up to
    40. *)
Theorem balanceDataset_rejects_uniform_lengths :
  avgLength [5; 5; 5] = 5%float
  /\ stdDev [5; 5; 5] = 0%float
  /\ balanceDataset [reply 5; reply 5; reply 5] = Ok []
  /\ balanceDataset [reply 42] = Ok []
  /\ forallb (fun l =>
               forallb (fun n => returns_nothing (balanceDataset (uniform n l)))
                       (seq 1 24))
             (seq 0 41)
     = true.
Proof. repeat split; vm_compute; reflexivity. Qed.

(** C9.  On the empty list [balanceDataset] returns the empty list: the
    two divisions by the length 0 yield NaN, not an exception, and the
    filter has nothing to test.  The same holds on any store, which is
    left as it was. *)
Theorem balanceDataset_empty :
  balanceDataset [] = Ok []
  /\ avgLength [] = nan
  /\ stdDev [] = nan
  /\ forall h, InPlace.balanceDataset [] h = (Ok [], h).
Proof. repeat split. Qed.




End Balance.

(* ================================================================== *)
(** ** getGPT4Responses *)

Module Responses.
Import DataProcessor Answering.

Section Order.

Variable chat : nat -> option Str.t -> option Str.t.

Lemma non_null_app a b : non_null (a ++ b) = non_null a ++ non_null b.
Proof.
  induction a as [|[r|] a IH]; simpl; [reflexivity| |]; now rewrite IH.
Qed.

Lemma respond_batch_app k a b :
  respond_batch chat k (a ++ b)
  = respond_batch chat k a ++ respond_batch chat (k + length a) b.
Proof.
  revert k. induction a as [|item a IH]; intro k; simpl.
  - now rewrite Nat.add_0_r.
  - rewrite IH. now rewrite Nat.add_succ_comm.
Qed.

Lemma non_null_respond_batch k data :
  non_null (respond_batch chat k data)
  = map (answered chat) (filter (succeeded chat) (indexed_from k data)).
Proof.
  revert k. unfold indexed_from.
  induction data as [|item rest IH]; intro k; simpl; [reflexivity|].
  unfold respond at 1, succeeded at 1. simpl.
  destruct (chat k (prompt item)) as [content|] eqn:E; simpl.
  - unfold answered at 1. simpl. rewrite E. now rewrite IH.
  - apply IH.
Qed.

(** Entered at [i] with enough iterations left, the loop appends the
    successful answers of everything from position [i] on. *)
Lemma batches_complete data :
  forall fuel i responses,
    length data - i <= fuel ->
    batches chat fuel i data responses
    = responses ++ non_null (respond_batch chat i (skipn i data)).
Proof.
  induction fuel as [|fuel IH]; intros i responses Hfuel; simpl.
  - rewrite skipn_all2 by lia. simpl. now rewrite app_nil_r.
  - destruct (i <? length data) eqn:E.
    + apply Nat.ltb_lt in E. unfold slice, batchSize.
      rewrite IH by lia. rewrite <- app_assoc. f_equal.
      rewrite <- non_null_app. f_equal.
      replace (i + 5 - i) with 5 by lia.
      rewrite <- (firstn_skipn 5 (skipn i data)) at 2.
      rewrite respond_batch_app. f_equal.
      rewrite skipn_skipn. rewrite (Nat.add_comm 5 i).
      destruct (Nat.le_gt_cases 5 (length (skipn i data))) as [Hl|Hl].
      * now rewrite firstn_length_le.
      * rewrite length_skipn in Hl.
        rewrite (skipn_all2 data) by lia. reflexivity.
    + apply Nat.ltb_ge in E.
      rewrite skipn_all2 by lia. simpl. now rewrite app_nil_r.
Qed.

End Order.

(** C10.  Whatever the endpoint answers, [getGPT4Responses] returns one
    record for each input record whose request succeeded, in the order of
    the input; each has the prompt of the input record it comes from and
    the text returned for it. *)
Theorem getGPT4Responses_in_order
    (chat : nat -> option Str.t -> option Str.t) (data : list Obj) :
  getGPT4Responses chat data
  = map (answered chat) (filter (succeeded chat) (indexed_from 0 data))
  /\ map prompt (getGPT4Responses chat data)
     = map (fun ki => prompt (snd ki)) (filter (succeeded chat) (indexed_from 0 data)).
Proof.
  assert (E : getGPT4Responses chat data
              = map (answered chat) (filter (succeeded chat) (indexed_from 0 data))).
  { unfold getGPT4Responses. rewrite batches_complete by lia.
    simpl. apply non_null_respond_batch. }
  split; [exact E|].
  rewrite E, map_map. reflexivity.
Qed.

End Responses.

(* ================================================================== *)
(** ** adjustLearningRate *)

Module Schedule.
Import ModelTrainer.

Lemma adjustLearningRate_keeps this epoch validationLoss :
  trainingConfig (adjustLearningRate epoch validationLoss this) = trainingConfig this
  /\ checkpoints (adjustLearningRate epoch validationLoss this) = checkpoints this
  /\ trained (adjustLearningRate epoch validationLoss this) = trained this.
Proof.
  unfold adjustLearningRate.
  destruct (warmupSteps (trainingConfig this) <? epoch); repeat split.
Qed.



End Schedule.

(* ================================================================== *)
(** ** trainingLoop *)

Module EarlyStopping.
Import ModelTrainer Patience.

Section Run.

Variable validateEpoch : nat -> EpochMetrics.

Lemma epoch_body_after n this :
  epoch_body validateEpoch (S n) (locals_after validateEpoch n) this
  = if improves validateEpoch (S n) then
      Next (locals_after validateEpoch (S n))
           (adjustLearningRate (S n) (loss (validateEpoch (S n)))
              (saveCheckpoint (S n) (validateEpoch (S n)) (run_epoch (S n) this)))
    else if maxPatience <=? stalled validateEpoch (S n) then
      Break (locals_after validateEpoch (S n)) (run_epoch (S n) this)
    else
      Next (locals_after validateEpoch (S n))
           (adjustLearningRate (S n) (loss (validateEpoch (S n)))
              (run_epoch (S n) this)).
Proof.
  unfold epoch_body, locals_after. simpl.
  destruct (Num.lt (loss (validateEpoch (S n))) (best_after validateEpoch n)); reflexivity.
Qed.

(** The loop entered after epoch [n], with [remaining] iterations to go,
    ends after some epoch [k]. *)
Lemma loop_after remaining :
  forall n this,
    stalled validateEpoch n < maxPatience ->
    exists k,
      n <= k <= n + remaining
      /\ fst (loop validateEpoch remaining (S n) (locals_after validateEpoch n) this)
         = locals_after validateEpoch k
      /\ trained (snd (loop validateEpoch remaining (S n)
                            (locals_after validateEpoch n) this))
         = trained this ++ seq (S n) (k - n)
      /\ checkpoints (snd (loop validateEpoch remaining (S n)
                                (locals_after validateEpoch n) this))
         = checkpoints this
           ++ map (checkpoint_of validateEpoch (trainingConfig this))
                  (filter (improves validateEpoch) (seq (S n) (k - n)))
      /\ (forall e, e < k -> n <= e -> stalled validateEpoch e < maxPatience)
      /\ (k < n + remaining -> stalled validateEpoch k = maxPatience).
Proof.
  induction remaining as [|r IH]; intros n this Hn.
  - exists n. simpl. rewrite Nat.sub_diag. simpl. rewrite !app_nil_r.
    repeat split; try lia.
  - cbn [loop]. rewrite epoch_body_after.
    destruct (improves validateEpoch (S n)) eqn:Ei;
      [|destruct (maxPatience <=? stalled validateEpoch (S n)) eqn:Ep].
    + assert (Hs : stalled validateEpoch (S n) < maxPatience)
        by (cbn [stalled]; rewrite Ei; unfold maxPatience; lia).
      destruct (IH (S n) (adjustLearningRate (S n) (loss (validateEpoch (S n)))
                  (saveCheckpoint (S n) (validateEpoch (S n)) (run_epoch (S n) this))) Hs)
        as (k & Hk & Hl & Ht & Hc & Hb & He).
      exists k. rewrite Hl, Ht, Hc.
      destruct (Schedule.adjustLearningRate_keeps
                  (saveCheckpoint (S n) (validateEpoch (S n)) (run_epoch (S n) this))
                  (S n) (loss (validateEpoch (S n)))) as (-> & -> & ->).
      simpl. replace (k - n) with (S (k - S n)) by lia.
      cbn [seq filter map]. rewrite Ei. cbn [map].
      rewrite <- !app_assoc. simpl.
      repeat split; try lia.
      intros e He1 He2. destruct (Nat.eq_dec e n) as [->|]; [exact Hn|].
      apply Hb; lia.
    + apply Nat.leb_le in Ep.
      exists (S n). simpl fst. simpl snd.
      replace (S n - n) with 1 by lia.
      change (filter (improves validateEpoch) (seq (S n) 1))
        with (if improves validateEpoch (S n) then [S n] else []).
      rewrite Ei. cbn [map trained checkpoints run_epoch seq].
      rewrite app_nil_r.
      repeat split; try lia.
      * intros e He1 He2. replace e with n by lia. exact Hn.
      * intros _. cbn [stalled] in Ep |- *. rewrite Ei in Ep |- *.
        unfold maxPatience in *. lia.
    + apply Nat.leb_gt in Ep.
      destruct (IH (S n) (adjustLearningRate (S n) (loss (validateEpoch (S n)))
                  (run_epoch (S n) this)) Ep)
        as (k & Hk & Hl & Ht & Hc & Hb & He).
      exists k. rewrite Hl, Ht, Hc.
      destruct (Schedule.adjustLearningRate_keeps
                  (run_epoch (S n) this)
                  (S n) (loss (validateEpoch (S n)))) as (-> & -> & ->).
      simpl. replace (k - n) with (S (k - S n)) by lia.
      cbn [seq filter map]. rewrite Ei.
      rewrite <- !app_assoc. simpl.
      repeat split; try lia.
      intros e He1 He2. destruct (Nat.eq_dec e n) as [->|]; [exact Hn|].
      apply Hb; lia.
Qed.

End Run.

(** C1.  A run of [trainingLoop] over at most [epochs] epochs trains the
    epochs [1 .. k] for some [k <= epochs] and saves a checkpoint for
    exactly those among them whose validation loss is strictly below the
    best loss of the epochs before; the patience counter is the number of
    epochs in a row without such an improvement; it has not reached 3
    before epoch [k], and when the run ends before [epochs] it has reached
    3 at epoch [k].  When the first five losses are 1.0, 0.9, 0.95, 0.96,
    0.97 and at least five epochs are asked for, exactly the epochs 1 to
    5 are trained and checkpoints are saved for epochs 1 and 2 only. *)
Theorem trainingLoop_early_stopping
    (validateEpoch : nat -> EpochMetrics) (epochs : nat) (this : ModelTrainer.t) :
  let run := trainingLoop validateEpoch epochs this in
  (exists k,
      k <= epochs
      /\ trained (snd run) = trained this ++ seq 1 k
      /\ checkpoints (snd run)
         = checkpoints this
           ++ map (checkpoint_of validateEpoch (trainingConfig this))
                  (filter (improves validateEpoch) (seq 1 k))
      /\ bestLoss (fst run) = best_after validateEpoch k
      /\ patienceCount (fst run) = stalled validateEpoch k
      /\ (forall e, e < k -> stalled validateEpoch e < 3)
      /\ (k < epochs -> stalled validateEpoch k = 3))
  /\ (map (fun e => loss (validateEpoch e)) (seq 1 5)
      = [1.0; 0.9; 0.95; 0.96; 0.97]%float ->
      5 <= epochs ->
      trained (snd run) = trained this ++ [1; 2; 3; 4; 5]
      /\ map ck_epoch (checkpoints (snd run))
         = map ck_epoch (checkpoints this) ++ [1; 2]
      /\ patienceCount (fst run) = 3).
Proof.
  intro run.
  assert (G : exists k,
      k <= epochs
      /\ trained (snd run) = trained this ++ seq 1 k
      /\ checkpoints (snd run)
         = checkpoints this
           ++ map (checkpoint_of validateEpoch (trainingConfig this))
                  (filter (improves validateEpoch) (seq 1 k))
      /\ bestLoss (fst run) = best_after validateEpoch k
      /\ patienceCount (fst run) = stalled validateEpoch k
      /\ (forall e, e < k -> stalled validateEpoch e < 3)
      /\ (k < epochs -> stalled validateEpoch k = 3)).
  { destruct (loop_after validateEpoch epochs 0 this) as (k & Hk & Hl & Ht & Hc & Hb & He).
    - simpl. unfold maxPatience. lia.
    - exists k. subst run. unfold trainingLoop.
      change (mkLocals infinity 0) with (locals_after validateEpoch 0).
      rewrite Hl, Ht, Hc, Nat.sub_0_r.
      repeat split; try lia.
      + intros e He1. apply Hb; lia.
      + intro Hlt. apply He. lia. }
  split; [exact G|].
  intros Hlosses H5.
  injection Hlosses as H1 H2 H3 H4 H5'.
  assert (S0 : stalled validateEpoch 0 = 0) by reflexivity.
  assert (I1 : improves validateEpoch 1 = true)
    by (cbn [improves best_after]; now rewrite H1).
  assert (B1 : best_after validateEpoch 1 = 1.0%float)
    by (cbn [best_after]; now rewrite H1).
  assert (I2 : improves validateEpoch 2 = true)
    by (cbn [improves]; now rewrite B1, H2).
  assert (B2 : best_after validateEpoch 2 = 0.9%float)
    by (cbn [best_after] in B1 |- *; now rewrite B1, H2).
  assert (I3 : improves validateEpoch 3 = false)
    by (cbn [improves]; now rewrite B2, H3).
  assert (B3 : best_after validateEpoch 3 = 0.9%float)
    by (cbn [best_after] in B2 |- *; now rewrite B2, H3).
  assert (I4 : improves validateEpoch 4 = false)
    by (cbn [improves]; now rewrite B3, H4).
  assert (B4 : best_after validateEpoch 4 = 0.9%float)
    by (cbn [best_after] in B3 |- *; now rewrite B3, H4).
  assert (I5 : improves validateEpoch 5 = false)
    by (cbn [improves]; now rewrite B4, H5').
  assert (S1 : stalled validateEpoch 1 = 0) by (cbn [stalled]; now rewrite I1).
  assert (S2 : stalled validateEpoch 2 = 0) by (cbn [stalled]; now rewrite I2).
  assert (S3 : stalled validateEpoch 3 = 1) by (cbn [stalled]; now rewrite I3, I2).
  assert (S4 : stalled validateEpoch 4 = 2) by (cbn [stalled]; now rewrite I4, I3, I2).
  assert (S5 : stalled validateEpoch 5 = 3)
    by (cbn [stalled]; now rewrite I5, I4, I3, I2).
  destruct G as (k & Hk & Ht & Hc & _ & Hp & Hb & He).
  assert (Ek : k = 5).
  { destruct (Nat.lt_trichotomy k 5) as [Hlt|[Heq|Hgt]]; [|exact Heq|].
    - assert (Hs : stalled validateEpoch k = 3) by (apply He; lia).
      assert (Hcases : k = 0 \/ k = 1 \/ k = 2 \/ k = 3 \/ k = 4) by lia.
      destruct Hcases as [ -> | [ -> | [ -> | [ -> | -> ] ] ] ]; congruence.
    - specialize (Hb 5 Hgt). lia. }
  subst k. rewrite Ht, Hc, Hp, S5.
  repeat split.
  rewrite map_app. f_equal.
  cbn [seq filter]. rewrite I1, I2, I3, I4, I5. reflexivity.
Qed.

Lemma trainingLoop_early_stopping_witness :
  trained (snd (trainingLoop synthetic 10 new)) = [1; 2; 3; 4; 5]
  /\ map ck_epoch (checkpoints (snd (trainingLoop synthetic 10 new))) = [1; 2]
  /\ patienceCount (fst (trainingLoop synthetic 10 new)) = 3.
Proof.
  apply (proj2 (trainingLoop_early_stopping synthetic 10 new)).
  - reflexivity.
  - lia.
Defined.

End EarlyStopping.


(* ================================================================== *)
(** ** Which stage writes to which record *)

Module Frame.
Import InPlace Store.
#[local] Open Scope store_scope.

Lemma extends_refl h : extends h h.
Proof. exists []. now rewrite app_nil_r. Qed.

Lemma extends_trans h1 h2 h3 : extends h1 h2 -> extends h2 h3 -> extends h1 h3.
Proof.
  intros [f1 ->] [f2 ->]. exists (f1 ++ f2). now rewrite app_assoc.
Qed.

Lemma extends_lookup h h' l o :
  extends h h' -> nth_error h l = Some o -> nth_error h' l = Some o.
Proof.
  intros [fresh ->] H. rewrite nth_error_app1; [exact H|].
  apply nth_error_Some. congruence.
Qed.

Lemma reads_only_grows {A} (m : M A) : reads_only m -> grows m.
Proof. intros H h. rewrite H. apply extends_refl. Qed.

Lemma grows_ret {A} (a : A) : grows (ret a).
Proof. intro h. apply extends_refl. Qed.

Lemma grows_throw {A} e : grows (@throw A e).
Proof. intro h. apply extends_refl. Qed.

Lemma grows_read l : grows (read l).
Proof.
  intro h. unfold read. destruct (nth_error h l); apply extends_refl.
Qed.

Lemma grows_alloc o : grows (alloc o).
Proof. intro h. now exists [o]. Qed.

Lemma grows_bind {A B} (m : M A) (k : A -> M B) :
  grows m -> (forall a, grows (k a)) -> grows (bind m k).
Proof.
  intros Hm Hk h. unfold bind. specialize (Hm h).
  destruct (m h) as [[a|e] h1]; simpl in *; [|exact Hm].
  eapply extends_trans; [exact Hm | apply Hk].
Qed.

Lemma grows_mapM {A B} (f : A -> M B) l :
  (forall x, grows (f x)) -> grows (mapM f l).
Proof.
  intro Hf. induction l as [|x l IH]; simpl; [apply grows_ret|].
  apply grows_bind; [apply Hf|]. intro y.
  apply grows_bind; [exact IH|]. intro ys. apply grows_ret.
Qed.

Lemma reads_only_ret {A} (a : A) : reads_only (ret a).
Proof. intro h. reflexivity. Qed.

Lemma reads_only_read l : reads_only (read l).
Proof. intro h. unfold read. now destruct (nth_error h l). Qed.

Lemma reads_only_bind {A B} (m : M A) (k : A -> M B) :
  reads_only m -> (forall a, reads_only (k a)) -> reads_only (bind m k).
Proof.
  intros Hm Hk h. unfold bind. specialize (Hm h).
  destruct (m h) as [[a|e] h1]; simpl in *; [|exact Hm].
  subst h1. apply Hk.
Qed.

Lemma reads_only_mapM {A B} (f : A -> M B) l :
  (forall x, reads_only (f x)) -> reads_only (mapM f l).
Proof.
  intro Hf. induction l as [|x l IH]; simpl; [apply reads_only_ret|].
  apply reads_only_bind; [apply Hf|]. intro y.
  apply reads_only_bind; [exact IH|]. intro ys. apply reads_only_ret.
Qed.

Lemma reads_only_filterM {A} (f : A -> M bool) l :
  (forall x, reads_only (f x)) -> reads_only (filterM f l).
Proof.
  intro Hf. induction l as [|x l IH]; simpl; [apply reads_only_ret|].
  apply reads_only_bind; [apply Hf|]. intro y.
  apply reads_only_bind; [exact IH|]. intro ys. apply reads_only_ret.
Qed.

Lemma reads_only_response_length item : reads_only (response_length item).
Proof.
  unfold response_length. apply reads_only_bind; [apply reads_only_read|].
  intro o. destruct (response o); [apply reads_only_ret | now intro h].
Qed.

(** [balanceDataset] reads the store and writes nothing. *)
Lemma reads_only_balanceDataset data : reads_only (balanceDataset data).
Proof.
  unfold balanceDataset.
  apply reads_only_bind; [apply reads_only_mapM, reads_only_response_length|].
  intro lengths. apply reads_only_filterM. intro item.
  apply reads_only_bind; [apply reads_only_response_length|].
  intro n. apply reads_only_ret.
Qed.

Section Endpoint.

Variable createPromptVariation : nat -> option Str.t -> float -> nat -> option Str.t.
Variable chat : nat -> option Str.t -> option Str.t.

Lemma grows_variations g : forall k p, grows (variations createPromptVariation k p g).
Proof.
  induction g as [|[temp maxTokens] g IH]; intros k p; simpl; [apply grows_ret|].
  destruct (createPromptVariation k p temp maxTokens) as [[|c s]|]; try apply IH.
  apply grows_bind; [apply grows_alloc|]. intro l.
  apply grows_bind; [apply IH|]. intro ls. apply grows_ret.
Qed.

Lemma grows_augment_from data : forall k, grows (augment_from createPromptVariation k data).
Proof.
  induction data as [|item rest IH]; intro k; cbn [augment_from]; [apply grows_ret|].
  apply grows_bind; [apply grows_read|]. intro o.
  apply grows_bind; [apply grows_variations|]. intro vs.
  apply grows_bind; [apply IH|]. intro more. apply grows_ret.
Qed.

Lemma grows_respond k item : grows (respond chat k item).
Proof.
  unfold respond. apply grows_bind; [apply grows_read|]. intro o.
  destruct (chat k (prompt o)); [|apply grows_ret].
  apply grows_bind; [apply grows_alloc|]. intro l. apply grows_ret.
Qed.

Lemma grows_respond_batch batch : forall k, grows (respond_batch chat k batch).
Proof.
  induction batch as [|item rest IH]; intro k; simpl; [apply grows_ret|].
  apply grows_bind; [apply grows_respond|]. intro r.
  apply grows_bind; [apply IH|]. intro rs. apply grows_ret.
Qed.

Lemma grows_batches data fuel : forall i responses, grows (batches chat fuel i data responses).
Proof.
  induction fuel as [|fuel IH]; intros i responses; simpl; [apply grows_ret|].
  destruct (i <? length data); [|apply grows_ret].
  apply grows_bind; [apply grows_respond_batch|]. intro rs. apply IH.
Qed.

Lemma grows_convert_item item : grows (convert_item item).
Proof.
  unfold convert_item. apply grows_bind; [apply grows_read|]. intro o.
  destruct (response o), (prompt o); try apply grows_throw. apply grows_alloc.
Qed.

End Endpoint.

(** *** cleanData on the store *)

Lemma update_length l o h : length (update l o h) = length h.
Proof.
  revert l. induction h as [|x h IH]; intros [|l]; simpl; auto.
Qed.

Lemma nth_error_update_eq l o h :
  l < length h -> nth_error (update l o h) l = Some o.
Proof.
  revert l. induction h as [|x h IH]; intros [|l] H; simpl in *; try lia; auto.
  apply IH. lia.
Qed.

Lemma nth_error_update_neq l l' o h :
  l' <> l -> nth_error (update l o h) l' = nth_error h l'.
Proof.
  revert l l'. induction h as [|x h IH]; intros [|l] [|l'] H; simpl; auto.
  congruence.
Qed.

Lemma nth_error_get h l : l < length h -> nth_error h l = Some (get h l).
Proof. intro H. unfold get. now apply nth_error_nth'. Qed.

Lemma get_nth_error h l o : nth_error h l = Some o -> get h l = o.
Proof. intro H. unfold get. now apply nth_error_nth. Qed.

Lemma get_update_eq l o h : l < length h -> get (update l o h) l = o.
Proof. intro H. apply get_nth_error. now apply nth_error_update_eq. Qed.

Lemma get_update_neq l l' o h : l' <> l -> get (update l o h) l' = get h l'.
Proof.
  unfold get. revert l l'.
  induction h as [|x h IH]; intros [|l] [|l'] H; simpl; auto. congruence.
Qed.

Lemma someM_read processedData p h :
  (forall l, In l processedData -> l < length h) ->
  someM (fun processed => q <- read processed ;; ret (DataProcessor.same_prompt q p))
        processedData h
  = (Ok (existsb (fun q => DataProcessor.same_prompt q p) (snapshot h processedData)), h).
Proof.
  induction processedData as [|l pd IH]; intro H; simpl; [reflexivity|].
  unfold bind at 1, read. unfold bind at 1.
  rewrite (nth_error_get h l) by (apply H; now left).
  unfold ret at 1.
  destruct (DataProcessor.same_prompt (get h l) p); [reflexivity|].
  apply IH. intros l' Hl'. apply H. now right.
Qed.

(** The callback on the store does to the object at [item] what
    [DataProcessor.clean_item] does to a record. *)
Lemma clean_callback_spec processedData item h :
  item < length h ->
  (forall l, In l processedData -> l < length h) ->
  clean_callback processedData item h
  = match DataProcessor.clean_item (DataProcessor.mk (snapshot h processedData))
                                   (get h item) with
    | Some o' => (Ok true, update item o' h)
    | None => (Ok false, h)
    end.
Proof.
  intros Hi Hpd. unfold clean_callback, DataProcessor.clean_item.
  unfold bind at 1, read. rewrite (nth_error_get h item Hi).
  destruct (prompt (get h item)) as [p|]; [|reflexivity].
  destruct ((length p =? 0) || (length p <? 10))%bool; [reflexivity|].
  unfold bind at 1. rewrite someM_read by assumption. cbn [DataProcessor.processedData].
  destruct (existsb _ _); [reflexivity|].
  unfold bind, write, ret. apply Nat.ltb_lt in Hi. now rewrite Hi.
Qed.

Lemma clean_item_some this o o' :
  DataProcessor.clean_item this o = Some o' ->
  exists p, prompt o = Some p /\ o' = with_prompt o (DataProcessor.normalize p).
Proof.
  unfold DataProcessor.clean_item. destruct (prompt o) as [p|]; [|discriminate].
  destruct ((length p =? 0) || (length p <? 10))%bool; [discriminate|].
  destruct (existsb _ _); [discriminate|].
  intro H. injection H as <-. now exists p.
Qed.

(** [cleanData] returns a sub-list of its input, writes to the returned
    records only, and only to their [prompt]. *)
Lemma cleanData_frame processedData data :
  forall h,
    (forall l, In l data -> l < length h) ->
    (forall l, In l processedData -> l < length h) ->
    exists out h',
      cleanData processedData data h = (Ok out, h')
      /\ length h' = length h
      /\ (forall l, ~ In l out -> nth_error h' l = nth_error h l)
      /\ (forall l, In l out ->
                    In l data
                    /\ exists q, nth_error h' l = Some (with_prompt (get h l) q)).
Proof.
  unfold cleanData.
  induction data as [|item rest IH]; intros h Hd Hpd.
  - exists [], h. split; [reflexivity|]. split; [reflexivity|].
    split; [reflexivity|]. intros l [].
  - cbn [filterM]. unfold bind at 1.
    rewrite clean_callback_spec by (auto; apply Hd; now left).
    destruct (DataProcessor.clean_item _ (get h item)) as [o'|] eqn:E.
    + destruct (clean_item_some _ _ _ E) as (p & Hp & ->).
      set (h1 := update item (with_prompt (get h item) (DataProcessor.normalize p)) h).
      assert (Hlen : length h1 = length h) by apply update_length.
      destruct (IH h1) as (out & h' & Hrun & Hlen' & Hout & Hin).
      { intros l Hl. rewrite Hlen. apply Hd. now right. }
      { intros l Hl. rewrite Hlen. now apply Hpd. }
      exists (item :: out), h'. unfold bind. rewrite Hrun. unfold ret.
      split; [reflexivity|]. split; [congruence|]. split.
      * intros l Hn. rewrite Hout by (intro; apply Hn; now right).
        apply nth_error_update_neq. intro. apply Hn. now left.
      * intros l Hl. split.
        { destruct Hl as [<-|Hl]; [now left | right; now apply Hin]. }
        destruct (in_dec Nat.eq_dec l out) as [Hlo|Hlo].
        { destruct (Hin l Hlo) as (_ & q & Hq). exists q. rewrite Hq. f_equal.
          destruct (Nat.eq_dec l item) as [->|Hne].
          - unfold h1. rewrite get_update_eq by (apply Hd; now left). reflexivity.
          - unfold h1. now rewrite get_update_neq. }
        { destruct Hl as [<-|Hl]; [|contradiction].
          exists (DataProcessor.normalize p). rewrite Hout by assumption.
          apply nth_error_update_eq. apply Hd. now left. }
    + destruct (IH h) as (out & h' & Hrun & Hlen' & Hout & Hin).
      { intros l Hl. apply Hd. now right. }
      { assumption. }
      exists out, h'. unfold bind. rewrite Hrun. unfold ret.
      repeat split; auto.
      * right. now apply Hin.
      * now apply Hin.
Qed.

Lemma get_lookup h l :
  get h l = match nth_error h l with Some o => o | None => emptyObj end.
Proof.
  unfold get. revert l. induction h as [|x h IH]; intros [|l]; simpl; auto.
Qed.

Lemma Str_eqb_refl p : Str.eqb p p = true.
Proof. unfold Str.eqb. destruct (list_eq_dec N.eq_dec p p); congruence. Qed.

(** When no record occurs twice in [data], the records that [cleanData]
    returns on the store hold what [DataProcessor.cleanData] computes from
    the records as they were. *)
Lemma cleanData_refines processedData data :
  forall h,
    NoDup data ->
    (forall l, In l data -> l < length h) ->
    (forall l, In l processedData -> l < length h) ->
    exists out h',
      cleanData processedData data h = (Ok out, h')
      /\ snapshot h' out
         = DataProcessor.cleanData (DataProcessor.mk (snapshot h processedData))
                                   (snapshot h data).
Proof.
  unfold cleanData.
  induction data as [|item rest IH]; intros h Hnd Hd Hpd.
  - exists [], h. split; reflexivity.
  - inversion Hnd as [|? ? Hni Hnd']; subst.
    assert (Hi : item < length h) by (apply Hd; now left).
    cbn [filterM snapshot map DataProcessor.cleanData].
    unfold bind at 1. rewrite clean_callback_spec by assumption.
    destruct (DataProcessor.clean_item _ (get h item)) as [o'|] eqn:E.
    + set (h1 := update item o' h).
      assert (Hlen : length h1 = length h) by apply update_length.
      assert (Hd1 : forall l, In l rest -> l < length h1)
        by (intros l Hl; rewrite Hlen; apply Hd; now right).
      assert (Hpd1 : forall l, In l processedData -> l < length h1)
        by (intros l Hl; rewrite Hlen; now apply Hpd).
      destruct (IH h1 Hnd' Hd1 Hpd1) as (out & h' & Hrun & Hsnap).
      destruct (cleanData_frame processedData rest h1 Hd1 Hpd1)
        as (out2 & h2 & Hrun2 & _ & Hout & Hin).
      unfold cleanData in Hrun2.
      rewrite Hrun in Hrun2. injection Hrun2 as <- <-.
      exists (item :: out), h'.
      unfold bind. rewrite Hrun. unfold ret. split; [reflexivity|].
      cbn [snapshot map]. fold (snapshot h' out). rewrite Hsnap. f_equal.
      * rewrite get_lookup, Hout by (intro Hio; now apply Hni, Hin).
        unfold h1. now rewrite nth_error_update_eq.
      * f_equal.
        { f_equal. unfold snapshot. apply map_ext_in. intros l Hl.
          unfold h1. apply get_update_neq. intros ->.
          destruct (clean_item_some _ _ _ E) as (p & Hp & _).
          unfold DataProcessor.clean_item in E. rewrite Hp in E.
          destruct ((length p =? 0) || (length p <? 10))%bool; [discriminate|].
          cbn [DataProcessor.processedData] in E.
          assert (Hex : existsb (fun q => DataProcessor.same_prompt q p)
                                (snapshot h processedData) = true).
          { apply existsb_exists. exists (get h item). split.
            - unfold snapshot. now apply in_map.
            - unfold DataProcessor.same_prompt. rewrite Hp. apply Str_eqb_refl. }
          rewrite Hex in E. discriminate. }
        { unfold snapshot. apply map_ext_in. intros l Hl.
          unfold h1. apply get_update_neq. intros ->. contradiction. }
    + destruct (IH h Hnd') as (out & h' & Hrun & Hsnap).
      { intros l Hl. apply Hd. now right. }
      { assumption. }
      exists out, h'.
      unfold bind. rewrite Hrun. unfold ret. split; [reflexivity|].
      exact Hsnap.
Qed.

(** C8, the claim as stated fails.  [cleanData] assigns to [item.prompt]:
    the record loaded with the prompt ["  hello world  "] is, after the
    call, the same object with the prompt ["hello world"]. *)
Lemma cleanData_overwrites_loaded_record :
  cleanData [] [0] [PromptRecord (Str.lit "  hello world  ")]
  = (Ok [0], [PromptRecord (Str.lit "hello world")]).
Proof. vm_compute. reflexivity. Qed.

Section Stages.

Variable createPromptVariation : nat -> option Str.t -> float -> nat -> option Str.t.
Variable chat : nat -> option Str.t -> option Str.t.

(** C8, amended.  On a store in which every reference points to a record:
    [cleanData] returns some of the records it was given, leaves every
    other record as it was, and changes of a returned record the [prompt]
    only (to the normalised text, when no record is listed twice);
    [augmentData], [getGPT4Responses] and [convertToLLaMAFormat] leave
    every existing record as it was and only add records; [balanceDataset]
    leaves the store as it was. *)
Theorem stages_write_only_cleaned_prompts (processedData data : list loc) (h : heap) :
  (forall l, In l processedData \/ In l data -> l < length h) ->
  (exists out h',
      cleanData processedData data h = (Ok out, h')
      /\ length h' = length h
      /\ (forall l, ~ In l out -> nth_error h' l = nth_error h l)
      /\ (forall l, In l out ->
                    In l data
                    /\ exists q, nth_error h' l = Some (with_prompt (get h l) q))
      /\ (NoDup data ->
          snapshot h' out
          = DataProcessor.cleanData (DataProcessor.mk (snapshot h processedData))
                                    (snapshot h data)))
  /\ extends h (snd (augmentData createPromptVariation data h))
  /\ extends h (snd (getGPT4Responses chat data h))
  /\ snd (balanceDataset data h) = h
  /\ extends h (snd (convertToLLaMAFormat data h)).
Proof.
  intro Hv.
  assert (Hd : forall l, In l data -> l < length h) by (intros; apply Hv; now right).
  assert (Hpd : forall l, In l processedData -> l < length h)
    by (intros; apply Hv; now left).
  split; [|split; [|split; [|split]]].
  - destruct (cleanData_frame processedData data h Hd Hpd)
      as (out & h' & Hrun & Hlen & Hout & Hin).
    exists out, h'. repeat (split; [assumption|]).
    intro Hnd.
    destruct (cleanData_refines processedData data h Hnd Hd Hpd)
      as (out2 & h2 & Hrun2 & Hsnap).
    rewrite Hrun in Hrun2. injection Hrun2 as <- <-. exact Hsnap.
  - apply grows_augment_from.
  - apply grows_batches.
  - apply reads_only_balanceDataset.
  - apply grows_mapM. intro item. apply grows_convert_item.
Qed.

End Stages.

(** *** The store and the values agree *)

Lemma valid_cons h l ls : valid h (l :: ls) -> l < length h /\ valid h ls.
Proof.
  intro H. split; [apply H; now left | intros x Hx; apply H; now right].
Qed.

Lemma valid_extends h h' ls : extends h h' -> valid h ls -> valid h' ls.
Proof.
  intros [fresh ->] H l Hl. rewrite length_app. specialize (H l Hl). lia.
Qed.

Lemma get_extends h h' l : extends h h' -> l < length h -> get h' l = get h l.
Proof.
  intros [fresh ->] H. unfold get. now apply app_nth1.
Qed.

Lemma snapshot_extends h h' ls :
  extends h h' -> valid h ls -> snapshot h' ls = snapshot h ls.
Proof.
  intros He Hv. unfold snapshot. apply map_ext_in. intros l Hl.
  apply get_extends; [exact He | now apply Hv].
Qed.

Lemma read_valid h l : l < length h -> read l h = (Ok (get h l), h).
Proof. intro H. unfold read. now rewrite nth_error_get. Qed.

Lemma response_length_valid h item :
  item < length h ->
  response_length item h = (DataProcessor.response_length (get h item), h).
Proof.
  intro H. unfold response_length, bind. rewrite read_valid by assumption.
  unfold DataProcessor.response_length. now destruct (response (get h item)).
Qed.

Lemma mapM_response_length data h :
  valid h data ->
  mapM response_length data h
  = (DataProcessor.mapR DataProcessor.response_length (snapshot h data), h).
Proof.
  induction data as [|item rest IH]; intro Hv; [reflexivity|].
  apply valid_cons in Hv. destruct Hv as [Hi Hv].
  cbn [mapM snapshot map DataProcessor.mapR]. unfold bind at 1.
  rewrite response_length_valid by assumption.
  destruct (DataProcessor.response_length (get h item)); [|reflexivity].
  unfold bind. rewrite (IH Hv). fold (snapshot h rest).
  now destruct (DataProcessor.mapR _ (snapshot h rest)).
Qed.

Lemma filterM_band avg sd data h :
  valid h data ->
  snd (filterM (fun item =>
                  length <- response_length item ;;
                  ret (DataProcessor.in_band avg sd length)) data h) = h
  /\ DataProcessor.filterR
       (fun item =>
          match DataProcessor.response_length item with
          | Throw e => Throw e
          | Ok length => Ok (DataProcessor.in_band avg sd length)
          end) (snapshot h data)
     = on_result (snapshot h)
         (fst (filterM (fun item =>
                          length <- response_length item ;;
                          ret (DataProcessor.in_band avg sd length)) data h)).
Proof.
  set (f := fun item : loc =>
              length <- response_length item ;;
              ret (DataProcessor.in_band avg sd length)).
  induction data as [|item rest IH]; intro Hv; [split; reflexivity|].
  apply valid_cons in Hv. destruct Hv as [Hi Hv].
  destruct (IH Hv) as [IH1 IH2].
  assert (Ef : f item h
               = (on_result (DataProcessor.in_band avg sd)
                            (DataProcessor.response_length (get h item)), h)).
  { unfold f, bind. rewrite response_length_valid by assumption.
    now destruct (DataProcessor.response_length (get h item)). }
  cbn [filterM snapshot map DataProcessor.filterR]. fold (snapshot h rest).
  unfold bind. rewrite Ef.
  destruct (DataProcessor.response_length (get h item)) as [n|e];
    [|split; reflexivity].
  cbn [on_result]. rewrite IH2.
  destruct (filterM f rest h) as [[out|e] h1]; simpl in *; subst h1;
    [|split; reflexivity].
  destruct (DataProcessor.in_band avg sd n); split; reflexivity.
Qed.

(** [balanceDataset] on the store returns the locations of the records
    that [DataProcessor.balanceDataset] returns, or throws as it does. *)
Lemma balanceDataset_refines data h :
  valid h data ->
  DataProcessor.balanceDataset (snapshot h data)
  = on_result (snapshot h) (fst (balanceDataset data h)).
Proof.
  intro Hv. unfold balanceDataset, DataProcessor.balanceDataset, bind.
  rewrite mapM_response_length by assumption.
  destruct (DataProcessor.mapR _ (snapshot h data)) as [lengths|e]; [|reflexivity].
  apply filterM_band. exact Hv.
Qed.

Section Answers.

Variable chat : nat -> option Str.t -> option Str.t.

Lemma non_null_snapshot h rs :
  snapshot h (non_null rs)
  = DataProcessor.non_null (map (option_map (get h)) rs).
Proof.
  induction rs as [|[r|] rs IH]; simpl; [reflexivity| |]; now rewrite IH.
Qed.

Lemma respond_batch_refines batch :
  forall k h,
    valid h batch ->
    exists rs h',
      respond_batch chat k batch h = (Ok rs, h')
      /\ extends h h'
      /\ valid_results h' rs
      /\ map (option_map (get h')) rs
         = DataProcessor.respond_batch chat k (snapshot h batch).
Proof.
  induction batch as [|item rest IH]; intros k h Hv.
  - exists [], h. repeat split; [apply extends_refl | intros l []].
  - apply valid_cons in Hv. destruct Hv as [Hi Hv].
    cbn [respond_batch snapshot map DataProcessor.respond_batch].
    fold (snapshot h rest).
    unfold bind at 1, respond, DataProcessor.respond. unfold bind at 1.
    rewrite read_valid by assumption.
    destruct (chat k (prompt (get h item))) as [content|].
    + unfold bind at 1, alloc, ret at 1.
      set (h1 := h ++ [ResponseRecord (prompt (get h item)) content]).
      assert (He1 : extends h h1) by now exists [ResponseRecord (prompt (get h item)) content].
      destruct (IH (S k) h1 (valid_extends _ _ _ He1 Hv))
        as (rs & h' & Hrun & He & Hvr & Hmap).
      exists (Some (length h) :: rs), h'. unfold bind. rewrite Hrun. unfold ret.
      split; [reflexivity|]. split; [now apply (extends_trans h h1)|]. split.
      * intros l [<-|Hl]; [|now apply Hvr].
        destruct He as [fresh ->]. unfold h1. rewrite !length_app. simpl. lia.
      * cbn [map option_map]. rewrite Hmap.
        rewrite (snapshot_extends h h1) by assumption. f_equal. f_equal.
        rewrite (get_extends h1 h') by
          (try assumption; unfold h1; rewrite length_app; simpl; lia).
        unfold get, h1. rewrite app_nth2 by lia. now rewrite Nat.sub_diag.
    + unfold ret at 1.
      destruct (IH (S k) h Hv) as (rs & h' & Hrun & He & Hvr & Hmap).
      exists (None :: rs), h'. unfold bind. rewrite Hrun. unfold ret.
      repeat split; try assumption. cbn [map option_map]. now rewrite Hmap.
Qed.

Lemma slice_snapshot h i j data :
  snapshot h (DataProcessor.slice i j data)
  = DataProcessor.slice i j (snapshot h data).
Proof.
  unfold DataProcessor.slice, snapshot. now rewrite skipn_map, firstn_map.
Qed.

Lemma In_slice {A} (x : A) i j l : In x (DataProcessor.slice i j l) -> In x l.
Proof.
  unfold DataProcessor.slice. intro H.
  rewrite <- (firstn_skipn i l). apply in_or_app. right.
  rewrite <- (firstn_skipn (j - i) (skipn i l)). apply in_or_app. now left.
Qed.

Lemma valid_slice h i j data : valid h data -> valid h (DataProcessor.slice i j data).
Proof.
  intros Hv l Hl. apply Hv. now apply In_slice in Hl.
Qed.

Lemma batches_refines data fuel :
  forall i responses h,
    valid h data ->
    valid h responses ->
    exists out h',
      batches chat fuel i data responses h = (Ok out, h')
      /\ extends h h'
      /\ valid h' out
      /\ snapshot h' out
         = DataProcessor.batches chat fuel i (snapshot h data) (snapshot h responses).
Proof.
  induction fuel as [|fuel IH]; intros i responses h Hd Hr.
  - exists responses, h. repeat split; [apply extends_refl | assumption].
  - cbn [batches DataProcessor.batches].
    unfold snapshot at 2. rewrite length_map. fold (snapshot h data).
    destruct (i <? length data).
    + destruct (respond_batch_refines
                  (DataProcessor.slice i (i + DataProcessor.batchSize) data) i h
                  (valid_slice h _ _ data Hd))
        as (rs & h1 & Hrun & He1 & Hvr & Hmap).
      assert (Hr1 : valid h1 (responses ++ non_null rs)).
      { intros l Hl. apply in_app_or in Hl. destruct Hl as [Hl|Hl].
        - now apply (valid_extends h h1 responses).
        - now apply Hvr. }
      destruct (IH (i + DataProcessor.batchSize) (responses ++ non_null rs) h1
                   (valid_extends h h1 data He1 Hd) Hr1)
        as (out & h' & Hrun' & He' & Hvo & Hsnap).
      exists out, h'. unfold bind. rewrite Hrun, Hrun'.
      split; [reflexivity|]. split; [now apply (extends_trans h h1)|].
      split; [assumption|].
      rewrite Hsnap. rewrite (snapshot_extends h h1 data) by assumption.
      f_equal. unfold snapshot at 1. rewrite map_app.
      fold (snapshot h1 responses). fold (snapshot h1 (non_null rs)).
      rewrite (snapshot_extends h h1 responses) by assumption.
      now rewrite non_null_snapshot, Hmap, slice_snapshot.
    + exists responses, h. repeat split; [apply extends_refl | assumption].
Qed.

(** [getGPT4Responses] on the store creates the records that
    [DataProcessor.getGPT4Responses] returns. *)
Lemma getGPT4Responses_refines data h :
  valid h data ->
  exists out h',
    getGPT4Responses chat data h = (Ok out, h')
    /\ extends h h'
    /\ snapshot h' out = DataProcessor.getGPT4Responses chat (snapshot h data).
Proof.
  intro Hv.
  destruct (batches_refines data (length data) 0 [] h Hv) as (out & h' & Hrun & He & _ & Hs);
    [intros l [] |].
  exists out, h'. unfold getGPT4Responses, DataProcessor.getGPT4Responses.
  unfold snapshot at 2. rewrite length_map. fold (snapshot h data).
  now repeat split.
Qed.

End Answers.

(** *** What [saveProcessedData] stores *)

Lemma convert_item_inv item h y h1 :
  convert_item item h = (Ok y, h1) ->
  exists p r, y = length h /\ h1 = h ++ [TrainingRecord p r].
Proof.
  unfold convert_item, bind, read.
  destruct (nth_error h item) as [o|]; [|discriminate].
  destruct (response o) as [r|]; [|discriminate].
  destruct (prompt o) as [p|]; [|discriminate].
  unfold alloc. intro H. injection H as <- <-. now exists p, r.
Qed.

(** The records that [convertToLLaMAFormat] returns are training records:
    none of them has a [prompt]. *)
Lemma convertToLLaMAFormat_no_prompt data :
  forall h out h',
    convertToLLaMAFormat data h = (Ok out, h') ->
    Cleaning.no_stored_prompt (DataProcessor.mk (snapshot h' out)).
Proof.
  unfold convertToLLaMAFormat, Cleaning.no_stored_prompt.
  cbn [DataProcessor.processedData].
  induction data as [|item rest IH]; intros h out h' Hrun o Ho.
  - injection Hrun as <- <-. destruct Ho.
  - cbn [mapM] in Hrun. unfold bind at 1 in Hrun.
    destruct (convert_item item h) as [[y|e] h1] eqn:Ey; [|discriminate].
    unfold bind at 1 in Hrun.
    destruct (mapM convert_item rest h1) as [[ys|e] h2] eqn:Er; [|discriminate].
    unfold ret in Hrun. injection Hrun as <- <-.
    destruct Ho as [<-|Ho]; [|now apply (IH h1 ys h2 Er)].
    destruct (convert_item_inv item h y h1 Ey) as (p & r & -> & ->).
    assert (G : extends (h ++ [TrainingRecord p r]) h2).
    { replace h2 with (snd (mapM convert_item rest (h ++ [TrainingRecord p r])))
        by now rewrite Er.
      apply grows_mapM. intro x. apply grows_convert_item. }
    rewrite (get_extends _ _ _ G) by (rewrite length_app; simpl; lia).
    unfold get. rewrite app_nth2 by lia. now rewrite Nat.sub_diag.
Qed.

(** *** The pipeline *)

Section Pipeline.

Variable createPromptVariation : nat -> option Str.t -> float -> nat -> option Str.t.
Variable chat : nat -> option Str.t -> option Str.t.

(** After [processData] a record that was in the store before is as it
    was, or it is one of the raw records and differs in its [prompt]. *)
Lemma processData_frame processedData rawData h :
  (forall l, In l processedData \/ In l rawData -> l < length h) ->
  forall l o,
    nth_error h l = Some o ->
    nth_error (snd (processData createPromptVariation chat processedData rawData h)) l
    = Some o
    \/ (In l rawData
        /\ exists q,
            nth_error (snd (processData createPromptVariation chat
                                        processedData rawData h)) l
            = Some (with_prompt o q)).
Proof.
  intros Hv l o Hl.
  destruct (cleanData_frame processedData rawData h)
    as (out & h1 & Hrun & _ & Hout & Hin);
    [intros; apply Hv; now right | intros; apply Hv; now left |].
  set (rest := fun cleanedData : list loc =>
    augmentedData <- augmentData createPromptVariation cleanedData ;;
    gpt4Responses <- getGPT4Responses chat augmentedData ;;
    balancedData <- balanceDataset gpt4Responses ;;
    llamaFormatData <- convertToLLaMAFormat balancedData ;;
    ret llamaFormatData).
  assert (E : processData createPromptVariation chat processedData rawData h
              = rest out h1)
    by (unfold processData; fold rest; unfold bind; now rewrite Hrun).
  assert (G : extends h1 (snd (rest out h1))).
  { unfold rest.
    apply grows_bind; [apply grows_augment_from|]. intro augmentedData.
    apply grows_bind; [apply grows_batches|]. intro gpt4Responses.
    apply grows_bind; [apply reads_only_grows, reads_only_balanceDataset|].
    intro balancedData.
    apply grows_bind; [apply grows_mapM; intro; apply grows_convert_item|].
    intro llamaFormatData. apply grows_ret. }
  rewrite E.
  destruct (in_dec Nat.eq_dec l out) as [Hlo|Hlo].
  - right. destruct (Hin l Hlo) as (Hraw & q & Hq). split; [exact Hraw|].
    exists q. rewrite (get_nth_error h l o Hl) in Hq.
    now apply (extends_lookup h1).
  - left. apply (extends_lookup h1); [exact G|]. now rewrite Hout.
Qed.

End Pipeline.

Lemma stages_write_only_cleaned_prompts_witness :
  extends loaded
    (snd (augmentData (fun _ p _ _ => p) [0; 1] loaded))
  /\ snd (balanceDataset [0; 1] loaded) = loaded.
Proof.
  assert (Hv : forall l, In l [] \/ In l [0; 1] -> l < length loaded).
  { intros l [[]|[<-|[<-|[]]]]; simpl; lia. }
  split.
  - exact (proj1 (proj2 (stages_write_only_cleaned_prompts
                           (fun _ p _ _ => p) (fun _ p => p) [] [0; 1] loaded Hv))).
  - exact (proj1 (proj2 (proj2 (proj2 (stages_write_only_cleaned_prompts
                           (fun _ p _ _ => p) (fun _ p => p) [] [0; 1] loaded Hv))))).
Defined.

End Frame.

(* ================================================================== *)
(** * Further properties *)

(** ** Text normalisation and cleanData *)

Module CleanMore.
Import DataProcessor Cleaning Curation.

Lemma length_trimStart s : length (Str.trimStart s) <= length s.
Proof.
  induction s as [|c s IH]; simpl; [lia|].
  destruct (Str.is_space c); simpl; lia.
Qed.

Lemma length_trim s : length (Str.trim s) <= length s.
Proof.
  unfold Str.trim, Str.trimEnd. rewrite length_rev.
  etransitivity; [apply length_trimStart|]. rewrite length_rev.
  apply length_trimStart.
Qed.

Lemma length_collapse b s : length (Str.collapse_from b s) <= length s.
Proof.
  revert b. induction s as [|c s IH]; intro b; simpl; [lia|].
  pose proof (IH true). pose proof (IH false).
  destruct (Str.is_space c); [destruct b|]; simpl; lia.
Qed.

Lemma plain_collapse b s : plain_spaces_only (Str.collapse_from b s) = true.
Proof.
  unfold plain_spaces_only.
  revert b. induction s as [|c s IH]; intro b; simpl; [reflexivity|].
  destruct (Str.is_space c) eqn:E; [destruct b|]; simpl;
    rewrite ?E, ?IH; reflexivity.
Qed.

Lemma forallb_filter {A} (P Q : A -> bool) l :
  forallb P l = true -> forallb P (filter Q l) = true.
Proof.
  induction l as [|x l IH]; simpl; [reflexivity|].
  intro H. apply andb_true_iff in H. destruct H as [Hx Hl].
  destruct (Q x); simpl; rewrite ?Hx; now apply IH.
Qed.

Lemma permitted_normalize p : forallb Str.permitted (normalize p) = true.
Proof.
  unfold normalize, Str.strip_forbidden. apply forallb_forall.
  intros c Hc. now apply filter_In in Hc.
Qed.

(** X1.  Whatever the prompt, the text that [cleanData] assigns consists
    of permitted code units only, its only white space is the plain
    space, and it is not longer than the prompt. *)
Theorem normalize_output (p : Str.t) :
  forallb Str.permitted (normalize p) = true
  /\ plain_spaces_only (normalize p) = true
  /\ length (normalize p) <= length p.
Proof.
  split; [apply permitted_normalize|]. split.
  - unfold normalize, Str.strip_forbidden, plain_spaces_only.
    apply forallb_filter. apply plain_collapse.
  - unfold normalize, Str.strip_forbidden, Str.collapse_spaces.
    etransitivity; [apply filter_length_le|].
    etransitivity; [apply length_collapse|]. apply length_trim.
Qed.

(** X2.  The text normalisation of [cleanData] settles after two
    applications: a third one changes nothing, whatever the prompt. *)
Theorem normalize_settles (p : Str.t) :
  normalize (normalize (normalize p)) = normalize (normalize p).
Proof.
  apply StrFacts.normalize_idem. apply permitted_normalize.
Qed.

Lemma clean_item_accepted this o :
  clean_item this o = if accepted this o then Some (cleaned o) else None.
Proof.
  unfold clean_item, accepted, cleaned, stored.
  destruct (prompt o) as [p|]; [|reflexivity].
  destruct (Nat.leb_spec 10 (length p)) as [H|H].
  - replace (length p =? 0) with false by (symmetry; apply Nat.eqb_neq; lia).
    replace (length p <? 10) with false by (symmetry; apply Nat.ltb_ge; lia).
    simpl. now destruct (existsb _ _).
  - replace (length p <? 10) with true by (symmetry; apply Nat.ltb_lt; lia).
    now rewrite orb_true_r.
Qed.

(** X3.  In every state of the processor [cleanData] keeps, in order,
    the records whose prompt has at least 10 code units and is not the
    prompt of a stored record, and gives each the normalised prompt,
    leaving its other fields alone; so it never returns more records than
    it was given, and every record it returns has a prompt. *)
Theorem cleanData_characterised (this : DataProcessor.t) (data : list Obj) :
  cleanData this data = map cleaned (filter (accepted this) data)
  /\ length (cleanData this data) <= length data
  /\ (forall o', In o' (cleanData this data) ->
        exists o p,
          In o data /\ prompt o = Some p /\ 10 <= length p
          /\ stored this p = false
          /\ o' = with_prompt o (normalize p)
          /\ response o' = response o /\ input o' = input o /\ output o' = output o).
Proof.
  assert (E : cleanData this data = map cleaned (filter (accepted this) data)).
  { induction data as [|item rest IH]; simpl; [reflexivity|].
    rewrite clean_item_accepted.
    destruct (accepted this item); simpl; now rewrite IH. }
  split; [exact E|]. split.
  - rewrite E, length_map. apply filter_length_le.
  - intros o' Ho'. rewrite E in Ho'. apply in_map_iff in Ho'.
    destruct Ho' as (o & <- & Ho). apply filter_In in Ho.
    destruct Ho as [Ho Ha]. unfold accepted in Ha. unfold cleaned.
    destruct (prompt o) as [p|] eqn:Ep; [|discriminate].
    apply andb_true_iff in Ha. destruct Ha as [Hl Hs].
    apply Nat.leb_le in Hl. apply negb_true_iff in Hs.
    exists o, p. repeat split; assumption.
Qed.

End CleanMore.

(** ** balanceDataset *)

Module BalanceMore.
Import DataProcessor Band.

Lemma mapR_throws data :
  (exists o, In o data /\ response o = None) ->
  mapR response_length data = Throw TypeError.
Proof.
  induction data as [|o rest IH]; intros (x & Hx & Hn); [destruct Hx|].
  simpl. unfold response_length at 1.
  destruct (response o) as [r|] eqn:Er; [|reflexivity].
  destruct Hx as [->|Hx]; [congruence|].
  rewrite IH by (exists x; now split). reflexivity.
Qed.

Lemma missing_or_present data :
  (exists o, In o data /\ response o = None)
  \/ (forall o, In o data -> response o <> None).
Proof.
  induction data as [|o rest [IH|IH]].
  - right. intros o [].
  - left. destruct IH as (x & Hx & Hn). exists x. split; [now right|assumption].
  - destruct (response o) as [r|] eqn:Er.
    + right. intros x [<-|Hx]; [congruence | now apply IH].
    + left. exists o. split; [now left|assumption].
Qed.

(** X4.  [balanceDataset] throws a TypeError exactly when some record
    has no response.  Otherwise it returns a sub-list of its input, in
    the input's order and never longer, and whether a record is kept
    depends on the length of its response only: records with responses of
    one length are all kept or all removed. *)
Theorem balanceDataset_outcome (data : list Obj) :
  ((exists o, In o data /\ response o = None) ->
   balanceDataset data = Throw TypeError)
  /\ ((forall o, In o data -> response o <> None) ->
      exists keep : nat -> bool,
        balanceDataset data = Ok (filter (fun o => keep (len o)) data)
        /\ length (filter (fun o => keep (len o)) data) <= length data)
  /\ (forall out, balanceDataset data = Ok out ->
      forall o, In o data -> response o <> None).
Proof.
  split; [|split].
  - intro H. unfold balanceDataset. now rewrite mapR_throws.
  - intro H.
    exists (in_band (avgLength (map len data)) (stdDev (map len data))).
    split; [|apply filter_length_le].
    unfold balanceDataset. rewrite Balance.mapR_response_length by assumption.
    cbv zeta. now rewrite Balance.filterR_band.
  - intros out Hout. destruct (missing_or_present data) as [H|H]; [|exact H].
    unfold balanceDataset in Hout. rewrite mapR_throws in Hout by assumption.
    discriminate.
Qed.

Lemma balanceDataset_outcome_witness :
  exists keep : nat -> bool,
    balanceDataset Curation.mixed
    = Ok (filter (fun o => keep (len o)) Curation.mixed)
    /\ length (filter (fun o => keep (len o)) Curation.mixed) <= length Curation.mixed.
Proof.
  apply (proj1 (proj2 (balanceDataset_outcome Curation.mixed))).
  intros o Ho. unfold Curation.mixed in Ho. simpl in Ho.
  repeat (destruct Ho as [<-|Ho]; [discriminate|]). destruct Ho.
Defined.

End BalanceMore.

(** ** The pace of getGPT4Responses *)

Module PacingFacts.
Import DataProcessor Pacing Batching.

Lemma batch_sizes_0 : batch_sizes 0 = [].
Proof. reflexivity. Qed.

Lemma batch_sizes_small r : 0 < r <= 5 -> batch_sizes r = [r].
Proof.
  intro H.
  assert (C : r = 1 \/ r = 2 \/ r = 3 \/ r = 4 \/ r = 5) by lia.
  destruct C as [ -> | [ -> | [ -> | [ -> | -> ] ] ] ]; reflexivity.
Qed.

Lemma batch_sizes_step r : batch_sizes (r + 5) = 5 :: batch_sizes r.
Proof.
  unfold batch_sizes.
  replace (r + 5) with (r + 1 * 5) by lia.
  rewrite Nat.div_add by lia. rewrite Nat.Div0.mod_add.
  rewrite Nat.add_comm. reflexivity.
Qed.

Lemma batch_sizes_nonempty r : 0 < r -> batch_sizes r <> [].
Proof.
  intro H. unfold batch_sizes.
  destruct (r mod 5 =? 0) eqn:E.
  - apply Nat.eqb_eq in E.
    assert (D : 0 < r / 5).
    { pose proof (Nat.div_mod_eq r 5). lia. }
    destruct (r / 5); [lia|]. discriminate.
  - destruct (repeat 5 (r / 5)); discriminate.
Qed.

Lemma batch_sizes_bounds n :
  Forall (fun m => 1 <= m <= 5) (batch_sizes n) /\ list_sum (batch_sizes n) = n.
Proof.
  unfold batch_sizes. split.
  - apply Forall_app. split.
    + apply Forall_forall. intros m Hm. apply repeat_spec in Hm. lia.
    + destruct (n mod 5 =? 0) eqn:E; constructor; [|constructor].
      apply Nat.eqb_neq in E. pose proof (Nat.mod_upper_bound n 5). lia.
  - rewrite list_sum_app.
    assert (R : forall k, list_sum (repeat 5 k) = 5 * k)
      by (induction k as [|k IH]; simpl; lia).
    rewrite R. pose proof (Nat.div_mod_eq n 5) as D.
    destruct (n mod 5 =? 0) eqn:E; cbn [list_sum fold_right].
    + apply Nat.eqb_eq in E. lia.
    + unfold list_sum. cbn [fold_right]. lia.
Qed.

Lemma pauses_spaced sizes :
  length (filter is_pause (spaced sizes)) = Nat.pred (length sizes).
Proof.
  induction sizes as [|m [|m' rest] IH]; try reflexivity.
  change (spaced (m :: m' :: rest)) with (InFlight m :: Pause :: spaced (m' :: rest)).
  cbn [filter is_pause length]. rewrite IH. reflexivity.
Qed.

Section Endpoint.

Variable chat : nat -> option Str.t -> option Str.t.

Lemma length_slice {A} i (l : list A) :
  length (slice i (i + batchSize) l) = Nat.min 5 (length l - i).
Proof.
  unfold slice, batchSize. replace (i + 5 - i) with 5 by lia.
  now rewrite length_firstn, length_skipn.
Qed.

(** The loop with its events collects what the loop without them does,
    and its events are those of the batches still to come. *)
Lemma batches_paced_spec data :
  forall fuel i responses trace,
    length data - i <= fuel ->
    batches_paced chat fuel i data responses trace
    = (batches chat fuel i data responses,
       trace ++ spaced (batch_sizes (length data - i))).
Proof.
  induction fuel as [|fuel IH]; intros i responses trace Hfuel.
  - replace (length data - i) with 0 by lia.
    simpl. now rewrite app_nil_r.
  - cbn [batches_paced batches].
    destruct (i <? length data) eqn:E.
    + apply Nat.ltb_lt in E. rewrite length_slice.
      destruct (i + batchSize <? length data) eqn:E5; unfold batchSize in *.
      * apply Nat.ltb_lt in E5. rewrite IH by lia. f_equal.
        rewrite <- !app_assoc. f_equal.
        replace (length data - i) with ((length data - (i + 5)) + 5) by lia.
        rewrite batch_sizes_step.
        pose proof (batch_sizes_nonempty (length data - (i + 5))) as Hne.
        destruct (batch_sizes (length data - (i + 5))) as [|m rest] eqn:Eb;
          [exfalso; apply Hne; [lia|reflexivity]|].
        replace (Nat.min 5 (length data - (i + 5) + 5)) with 5 by lia.
        reflexivity.
      * apply Nat.ltb_ge in E5. rewrite IH by lia. f_equal.
        rewrite <- app_assoc. f_equal.
        replace (length data - (i + 5)) with 0 by lia.
        rewrite batch_sizes_0, batch_sizes_small by lia.
        replace (Nat.min 5 (length data - i)) with (length data - i) by lia.
        reflexivity.
    + apply Nat.ltb_ge in E.
      replace (length data - i) with 0 by lia.
      simpl. now rewrite app_nil_r.
Qed.

End Endpoint.

(** X5.  For [n] records [getGPT4Responses] puts the requests in flight
    in batches of five and a last smaller one, never more than five at a
    time, each record in exactly one batch, and it pauses between two
    batches and not after the last: one pause fewer than batches.  The
    records it collects are those of the loop without the events. *)
Theorem getGPT4Responses_pace
    (chat : nat -> option Str.t -> option Str.t) (data : list Obj) :
  let n := length data in
  fst (getGPT4Responses_paced chat data) = getGPT4Responses chat data
  /\ snd (getGPT4Responses_paced chat data) = spaced (batch_sizes n)
  /\ Forall (fun m => 1 <= m <= 5) (batch_sizes n)
  /\ list_sum (batch_sizes n) = n
  /\ length (filter is_pause (snd (getGPT4Responses_paced chat data)))
     = Nat.pred (length (batch_sizes n)).
Proof.
  intro n. unfold getGPT4Responses_paced, getGPT4Responses.
  rewrite batches_paced_spec by lia. cbn [fst snd app].
  rewrite Nat.sub_0_r. fold n.
  split; [reflexivity|]. split; [reflexivity|].
  destruct (batch_sizes_bounds n) as [Hb Hs].
  split; [exact Hb|]. split; [exact Hs|]. apply pauses_spaced.
Qed.

End PacingFacts.

(** ** convertToLLaMAFormat and generateDatasetStats *)

Module Format.
Import DataProcessor Formatting Tally.

Lemma convert_record_formats i o : convert_record i = Ok o -> formats i o.
Proof.
  unfold convert_record, formats.
  destruct (response i) as [r|]; [|discriminate].
  destruct (prompt i) as [p|]; [|discriminate].
  intro H. injection H as <-. cbn.
  repeat (split; [reflexivity|]).
  eexists. split; [reflexivity|]. cbn.
  repeat (split; [reflexivity|]).
  unfold Str.split_spaces_length. split; lia.
Qed.

Lemma convert_record_complete i :
  complete i = true -> exists o, convert_record i = Ok o.
Proof.
  unfold complete, convert_record.
  destruct (response i); [|discriminate].
  destruct (prompt i); [|discriminate].
  intros _. eexists. reflexivity.
Qed.

Lemma convert_record_incomplete i :
  complete i = false -> convert_record i = Throw TypeError.
Proof.
  unfold complete, convert_record.
  destruct (response i); [|reflexivity].
  destruct (prompt i); [discriminate|reflexivity].
Qed.

Lemma convert_ok data out :
  convertToLLaMAFormat data = Ok out -> Forall2 formats data out.
Proof.
  unfold convertToLLaMAFormat. revert out.
  induction data as [|i rest IH]; intros out H; simpl in H.
  - injection H as <-. constructor.
  - destruct (convert_record i) as [o|e] eqn:Ei; [|discriminate].
    destruct (mapR convert_record rest) as [os|e]; [|discriminate].
    injection H as <-. constructor.
    + now apply convert_record_formats.
    + now apply IH.
Qed.

Lemma convert_complete data :
  forallb complete data = true -> exists out, convertToLLaMAFormat data = Ok out.
Proof.
  unfold convertToLLaMAFormat.
  induction data as [|i rest IH]; intro H; simpl in *.
  - eexists. reflexivity.
  - apply andb_true_iff in H. destruct H as [Hi Hr].
    destruct (convert_record_complete i Hi) as (o & ->).
    destruct (IH Hr) as (os & ->). eexists. reflexivity.
Qed.

Lemma convert_incomplete data :
  forallb complete data = false -> convertToLLaMAFormat data = Throw TypeError.
Proof.
  unfold convertToLLaMAFormat.
  induction data as [|i rest IH]; intro H; simpl in *; [discriminate|].
  destruct (complete i) eqn:Ei.
  - destruct (convert_record_complete i Ei) as (o & ->).
    rewrite IH by exact H. reflexivity.
  - now rewrite convert_record_incomplete.
Qed.

(** X6.  [convertToLLaMAFormat] returns exactly when every record has a
    response and a prompt, and throws a TypeError otherwise.  When it
    returns there is one training record per record, in order: the prompt
    became the instruction and the response the output, unchanged, the
    input is the empty string, the metadata holds the length of the
    response and token counts of at least one, and the record has no
    prompt and no response any more.  So the function cannot be applied
    to its own non-empty result: that throws. *)
Theorem convertToLLaMAFormat_outcome (data : list Obj) :
  (forallb complete data = true ->
     exists out, convertToLLaMAFormat data = Ok out /\ Forall2 formats data out)
  /\ (forallb complete data = false ->
        convertToLLaMAFormat data = Throw TypeError)
  /\ (forall out, convertToLLaMAFormat data = Ok out ->
        length out = length data
        /\ (out <> [] -> convertToLLaMAFormat out = Throw TypeError)).
Proof.
  split; [|split].
  - intro H. destruct (convert_complete data H) as (out & E).
    exists out. split; [exact E | now apply convert_ok].
  - apply convert_incomplete.
  - intros out E. pose proof (convert_ok data out E) as F. split.
    + symmetry. eapply Forall2_length. exact F.
    + intro Hne. apply convert_incomplete.
      destruct F as [|i o rest os Hio _]; [congruence|].
      simpl. unfold complete.
      destruct Hio as (_ & _ & _ & _ & -> & _). reflexivity.
Qed.

Lemma convertToLLaMAFormat_outcome_witness :
  exists out,
    convertToLLaMAFormat [ResponseRecord (Some (Str.lit "a b")) (Str.lit "c")] = Ok out
    /\ Forall2 formats [ResponseRecord (Some (Str.lit "a b")) (Str.lit "c")] out.
Proof.
  apply (proj1 (convertToLLaMAFormat_outcome
                  [ResponseRecord (Some (Str.lit "a b")) (Str.lit "c")])).
  reflexivity.
Defined.

(** *** The distributions *)

Lemma lookup_bump_eq k d : lookup k (bump k d) = Some (S (tally k d)).
Proof.
  unfold tally. induction d as [|[k' c] rest IH]; simpl.
  - now rewrite Nat.eqb_refl.
  - destruct (k' =? k) eqn:E; simpl; rewrite E; [reflexivity|exact IH].
Qed.

Lemma lookup_bump_neq k k' d : k <> k' -> lookup k' (bump k d) = lookup k' d.
Proof.
  intro Hne. induction d as [|[k0 c] rest IH]; simpl.
  - destruct (k =? k') eqn:E; [apply Nat.eqb_eq in E; congruence|reflexivity].
  - destruct (k0 =? k) eqn:E; simpl.
    + apply Nat.eqb_eq in E. subst k0.
      destruct (k =? k') eqn:E'; [apply Nat.eqb_eq in E'; congruence|reflexivity].
    + destruct (k0 =? k'); [reflexivity|exact IH].
Qed.

Lemma total_bump k d : total (bump k d) = S (total d).
Proof.
  unfold total. induction d as [|[k' c] rest IH]; simpl; [reflexivity|].
  destruct (k' =? k); simpl; [reflexivity|]. rewrite IH. lia.
Qed.

Lemma keys_bump k d k' :
  In k' (map fst (bump k d)) <-> k' = k \/ In k' (map fst d).
Proof.
  induction d as [|[k0 c] rest IH]; simpl.
  - intuition.
  - destruct (k0 =? k) eqn:E; simpl.
    + apply Nat.eqb_eq in E. subst k0. intuition.
    + rewrite IH. intuition.
Qed.

Lemma NoDup_bump k d : NoDup (map fst d) -> NoDup (map fst (bump k d)).
Proof.
  induction d as [|[k0 c] rest IH]; simpl; intro H.
  - constructor; [intros []|constructor].
  - inversion H as [|? ? Hnin Hnd]; subst.
    destruct (k0 =? k) eqn:E; simpl.
    + constructor; assumption.
    + constructor; [|now apply IH].
      rewrite keys_bump. intros [ -> | Hin ]; [|contradiction].
      now rewrite Nat.eqb_refl in E.
Qed.

Lemma occurrences_snoc key k seen o m :
  metadata o = Some m ->
  occurrences key k (seen ++ [o])
  = occurrences key k seen + (if key m =? k then 1 else 0).
Proof.
  intro Hm. unfold occurrences. rewrite filter_app, length_app. simpl.
  rewrite Hm. destruct (key m =? k); reflexivity.
Qed.

Lemma counted_bump key d seen o m :
  metadata o = Some m -> counted key d seen ->
  counted key (bump (key m) d) (seen ++ [o]).
Proof.
  intros Hm (Hl & Ht & Hn). split; [|split].
  - intro k. rewrite (occurrences_snoc key k seen o m Hm).
    destruct (key m =? k) eqn:E.
    + apply Nat.eqb_eq in E. subst k. rewrite lookup_bump_eq.
      unfold tally. rewrite Hl.
      destruct (occurrences key (key m) seen) as [|c].
      * reflexivity.
      * replace (S c + 1) with (S (S c)) by lia. reflexivity.
    + apply Nat.eqb_neq in E. rewrite lookup_bump_neq by exact E.
      rewrite Nat.add_0_r. apply Hl.
  - rewrite total_bump, Ht, filter_app, length_app.
    cbn [filter].
    replace (has_metadata o) with true by (unfold has_metadata; now rewrite Hm).
    cbn [length]. lia.
  - now apply NoDup_bump.
Qed.

Lemma forEach_throws stats data :
  forallb has_metadata data = false -> forEach stats data = Throw TypeError.
Proof.
  revert stats. induction data as [|o rest IH]; intros stats H; simpl in *.
  - discriminate.
  - unfold count_item, has_metadata in *.
    destruct (metadata o) as [m|]; [|reflexivity].
    simpl in H. now apply IH.
Qed.

Lemma forEach_counts data :
  forall stats seen,
    forallb has_metadata data = true ->
    counted promptTokens (promptLengthDistribution stats) seen ->
    counted responseTokens (responseLengthDistribution stats) seen ->
    exists stats',
      forEach stats data = Ok stats'
      /\ totalExamples stats' = totalExamples stats
      /\ counted promptTokens (promptLengthDistribution stats') (seen ++ data)
      /\ counted responseTokens (responseLengthDistribution stats') (seen ++ data).
Proof.
  induction data as [|o rest IH]; intros stats seen H Hp Hr; simpl in *.
  - exists stats. rewrite app_nil_r. auto.
  - apply andb_true_iff in H. destruct H as [Ho Hrest].
    unfold count_item. unfold has_metadata in Ho.
    destruct (metadata o) as [m|] eqn:Em; [|discriminate].
    edestruct (IH (mkStats (totalExamples stats)
                     (averagePromptLength stats + Num.of_nat (promptTokens m))%float
                     (averageResponseLength stats + Num.of_nat (responseTokens m))%float
                     (bump (promptTokens m) (promptLengthDistribution stats))
                     (bump (responseTokens m) (responseLengthDistribution stats)))
                  (seen ++ [o]) Hrest) as (stats' & E & Ht & Hp' & Hr').
    + cbn. now apply counted_bump.
    + cbn. now apply counted_bump.
    + exists stats'. rewrite <- app_assoc in Hp', Hr'. simpl in Hp', Hr'.
      cbn in Ht. auto.
Qed.

Lemma counted_nil key : counted key [] [].
Proof. split; [|split]; [reflexivity|reflexivity|constructor]. Qed.

Lemma filter_all {A} (f : A -> bool) l : forallb f l = true -> filter f l = l.
Proof.
  induction l as [|x rest IH]; simpl; intro H; [reflexivity|].
  apply andb_true_iff in H. destruct H as [-> Hr]. now rewrite IH.
Qed.

Lemma stats_counts data :
  forallb has_metadata data = true ->
  exists stats,
    generateDatasetStats data = Ok stats
    /\ totalExamples stats = length data
    /\ counted promptTokens (promptLengthDistribution stats) data
    /\ counted responseTokens (responseLengthDistribution stats) data.
Proof.
  intro H. unfold generateDatasetStats.
  destruct (forEach_counts data (mkStats (length data) 0 0 [] []) [] H
              (counted_nil _) (counted_nil _)) as (stats & -> & Ht & Hp & Hr).
  eexists. split; [reflexivity|]. cbn. simpl in Hp, Hr. auto.
Qed.

(** X7.  [generateDatasetStats] throws a TypeError exactly when some
    record has no metadata.  Otherwise [totalExamples] is the number of
    records, and each distribution has one key per token count that
    occurs, no key twice, holding the number of records with that count:
    a count that does not occur has no key, and the counts of a
    distribution add up to the number of records. *)
Theorem generateDatasetStats_outcome (data : list Obj) :
  (forallb has_metadata data = false ->
     generateDatasetStats data = Throw TypeError)
  /\ (forallb has_metadata data = true ->
        exists stats,
          generateDatasetStats data = Ok stats
          /\ totalExamples stats = length data
          /\ (forall k, tally k (promptLengthDistribution stats)
                        = occurrences promptTokens k data)
          /\ (forall k, tally k (responseLengthDistribution stats)
                        = occurrences responseTokens k data)
          /\ (forall k, lookup k (promptLengthDistribution stats) = None
                        <-> occurrences promptTokens k data = 0)
          /\ (forall k, lookup k (responseLengthDistribution stats) = None
                        <-> occurrences responseTokens k data = 0)
          /\ total (promptLengthDistribution stats) = length data
          /\ total (responseLengthDistribution stats) = length data
          /\ NoDup (map fst (promptLengthDistribution stats))
          /\ NoDup (map fst (responseLengthDistribution stats))).
Proof.
  split.
  - intro H. unfold generateDatasetStats. now rewrite forEach_throws.
  - intro H.
    destruct (stats_counts data H)
      as (stats & E & Ht & (Hpl & Hpt & Hpn) & (Hrl & Hrt & Hrn)).
    rewrite (filter_all _ _ H) in Hpt, Hrt.
    exists stats. split; [exact E|]. split; [exact Ht|].
    assert (T : forall key d,
               (forall k, lookup k d
                          = if occurrences key k data =? 0 then None
                            else Some (occurrences key k data)) ->
               (forall k, tally k d = occurrences key k data)
               /\ (forall k, lookup k d = None <-> occurrences key k data = 0)).
    { intros key d Hl. split; intro k; unfold tally; rewrite Hl;
        destruct (occurrences key k data); simpl; [reflexivity|reflexivity| |].
      - split; reflexivity.
      - split; discriminate. }
    destruct (T _ _ Hpl) as [Tp Np]. destruct (T _ _ Hrl) as [Tr Nr].
    repeat (split; [assumption|]). assumption.
Qed.

Lemma generateDatasetStats_outcome_witness :
  generateDatasetStats [emptyObj; TrainingRecord (Str.lit "a b") (Str.lit "c")]
  = Throw TypeError.
Proof.
  apply (proj1 (generateDatasetStats_outcome
                  [emptyObj; TrainingRecord (Str.lit "a b") (Str.lit "c")])).
  reflexivity.
Defined.

Lemma formats_has_metadata data out :
  Forall2 formats data out -> forallb has_metadata out = true.
Proof.
  induction 1 as [|i o rest os Hio _ IH]; simpl; [reflexivity|].
  destruct Hio as (_ & _ & _ & _ & _ & m & Hm & _).
  unfold has_metadata at 1. now rewrite Hm.
Qed.

Lemma formats_occurrences data out :
  Forall2 formats data out ->
  forall k, occurrences promptTokens k out = pieces prompt k data
            /\ occurrences responseTokens k out = pieces response k data.
Proof.
  unfold occurrences, pieces.
  induction 1 as [|i o rest os Hio _ IH]; intro k; [split; reflexivity|].
  destruct (IH k) as [IHp IHr].
  destruct Hio as (_ & _ & _ & _ & _ & m & Hm & _ & Hp & Hr & _).
  cbn [filter]. rewrite Hm.
  destruct (prompt i) as [p|]; [|discriminate].
  destruct (response i) as [r|]; [|discriminate].
  cbn [option_map] in Hp, Hr. injection Hp as ->. injection Hr as ->.
  split.
  - destruct (Str.split_spaces_length p =? k); cbn [length]; now rewrite IHp.
  - destruct (Str.split_spaces_length r =? k); cbn [length]; now rewrite IHr.
Qed.

Lemma pieces_0 field data : pieces field 0 data = 0.
Proof.
  unfold pieces. induction data as [|o rest IH]; simpl; [reflexivity|].
  destruct (field o) as [s|]; [|exact IH].
  unfold Str.split_spaces_length. simpl. exact IH.
Qed.

(** X8.  The statistics of a data set that [convertToLLaMAFormat]
    returned are always produced: [generateDatasetStats] does not throw on
    it.  [totalExamples] is the number of records that were formatted,
    the count under a key [k] is the number of those records whose prompt
    (response) [split(/\s+/)] cuts into [k] pieces, and no distribution has
    the key 0. *)
Theorem stats_of_formatted (data out : list Obj) :
  convertToLLaMAFormat data = Ok out ->
  exists stats,
    generateDatasetStats out = Ok stats
    /\ totalExamples stats = length data
    /\ (forall k, tally k (promptLengthDistribution stats) = pieces prompt k data)
    /\ (forall k, tally k (responseLengthDistribution stats) = pieces response k data)
    /\ lookup 0 (promptLengthDistribution stats) = None
    /\ lookup 0 (responseLengthDistribution stats) = None.
Proof.
  intro E. pose proof (convert_ok data out E) as F.
  destruct (stats_counts out (formats_has_metadata data out F))
    as (stats & Es & Ht & (Hpl & _) & (Hrl & _)).
  exists stats. split; [exact Es|].
  split; [rewrite Ht; symmetry; eapply Forall2_length; exact F|].
  assert (P : forall k, lookup k (promptLengthDistribution stats)
                        = if pieces prompt k data =? 0 then None
                          else Some (pieces prompt k data)).
  { intro k. rewrite Hpl. now destruct (formats_occurrences data out F k) as [-> _]. }
  assert (R : forall k, lookup k (responseLengthDistribution stats)
                        = if pieces response k data =? 0 then None
                          else Some (pieces response k data)).
  { intro k. rewrite Hrl. now destruct (formats_occurrences data out F k) as [_ ->]. }
  repeat split.
  - intro k. unfold tally. rewrite P. now destruct (pieces prompt k data).
  - intro k. unfold tally. rewrite R. now destruct (pieces response k data).
  - rewrite P, pieces_0. reflexivity.
  - rewrite R, pieces_0. reflexivity.
Qed.

Lemma stats_of_formatted_witness :
  exists stats,
    generateDatasetStats
      [TrainingRecord (Str.lit "a b") (Str.lit "c");
       TrainingRecord (Str.lit "d") (Str.lit "e f")] = Ok stats
    /\ totalExamples stats = 2
    /\ (forall k, tally k (promptLengthDistribution stats)
                  = pieces prompt k
                      [ResponseRecord (Some (Str.lit "a b")) (Str.lit "c");
                       ResponseRecord (Some (Str.lit "d")) (Str.lit "e f")])
    /\ (forall k, tally k (responseLengthDistribution stats)
                  = pieces response k
                      [ResponseRecord (Some (Str.lit "a b")) (Str.lit "c");
                       ResponseRecord (Some (Str.lit "d")) (Str.lit "e f")])
    /\ lookup 0 (promptLengthDistribution stats) = None
    /\ lookup 0 (responseLengthDistribution stats) = None.
Proof.
  apply (stats_of_formatted
           [ResponseRecord (Some (Str.lit "a b")) (Str.lit "c");
            ResponseRecord (Some (Str.lit "d")) (Str.lit "e f")]).
  reflexivity.
Defined.

End Format.

(** ** augmentData on the store *)

Module Augment.
Import InPlace Store FanOut Frame.
#[local] Open Scope store_scope.

Section Endpoint.

Variable createPromptVariation : nat -> option Str.t -> float -> nat -> option Str.t.

Lemma successes_length g :
  forall k p, length (successes createPromptVariation k p g) <= length g.
Proof.
  induction g as [|[temp maxTokens] rest IH]; intros k p; simpl; [lia|].
  destruct (createPromptVariation k p temp maxTokens) as [[|c s]|]; simpl;
    specialize (IH (S k) p); lia.
Qed.

Lemma successes_bare g :
  forall k p o,
    In o (map PromptRecord (successes createPromptVariation k p g)) -> bare_prompt o.
Proof.
  induction g as [|[temp maxTokens] rest IH]; intros k p o Ho; simpl in Ho;
    [destruct Ho|].
  destruct (createPromptVariation k p temp maxTokens) as [[|c s]|];
    try (now apply (IH (S k) p)).
  destruct Ho as [<-|Ho]; [now exists c, s | now apply (IH (S k) p)].
Qed.

(** The inner loops create one record per successful variation, at the
    next free locations. *)
Lemma variations_spec g :
  forall k p h,
    variations createPromptVariation k p g h
    = (Ok (seq (length h) (length (successes createPromptVariation k p g))),
       h ++ map PromptRecord (successes createPromptVariation k p g)).
Proof.
  induction g as [|[temp maxTokens] rest IH]; intros k p h.
  - simpl. unfold ret. now rewrite app_nil_r.
  - cbn [variations successes].
    destruct (createPromptVariation k p temp maxTokens) as [[|c s]|];
      try apply IH.
    unfold bind at 1, alloc. unfold bind at 1. rewrite IH. unfold ret.
    rewrite length_app, <- app_assoc. cbn [length map app seq].
    now rewrite Nat.add_1_r.
Qed.

Lemma snapshot_fresh h fresh :
  snapshot (h ++ fresh) (seq (length h) (length fresh)) = fresh.
Proof.
  revert h. induction fresh as [|x fresh IH]; intro h; [reflexivity|].
  cbn [length seq snapshot map]. f_equal.
  - unfold get. rewrite app_nth2 by lia. now rewrite Nat.sub_diag.
  - replace (h ++ x :: fresh) with ((h ++ [x]) ++ fresh)
      by now rewrite <- app_assoc.
    replace (S (length h)) with (length (h ++ [x]))
      by (rewrite length_app; simpl; lia).
    apply IH.
Qed.

Lemma filter_none {A} (f : A -> bool) l :
  (forall x, In x l -> f x = false) -> filter f l = [].
Proof.
  induction l as [|x l IH]; intro H; simpl; [reflexivity|].
  rewrite (H x) by now left. apply IH. intros y Hy. apply H. now right.
Qed.

Lemma augment_from_spec data :
  forall k h,
    valid h data ->
    exists out h',
      augment_from createPromptVariation k data h = (Ok out, h')
      /\ extends h h'
      /\ valid h' out
      /\ snapshot h' out
         = augmentData_values createPromptVariation k (snapshot h data)
      /\ (forall n, n <= length h -> (forall l, In l data -> l < n) ->
                    filter (fun l => l <? n) out = data)
      /\ (forall l, In l out -> length h <= l -> bare_prompt (get h' l))
      /\ length data <= length out <= 10 * length data.
Proof.
  induction data as [|item rest IH]; intros k h Hv.
  - exists [], h. split; [reflexivity|]. split; [apply extends_refl|].
    split; [intros l []|]. split; [reflexivity|]. split; [reflexivity|].
    split; [intros l []|]. simpl. lia.
  - apply valid_cons in Hv. destruct Hv as [Hi Hv].
    set (fresh := map PromptRecord
                      (successes createPromptVariation k (prompt (get h item)) grid)).
    assert (E1 : extends h (h ++ fresh)) by now exists fresh.
    destruct (IH (k + length grid) (h ++ fresh) (valid_extends _ _ _ E1 Hv))
      as (out & h' & Hrun & He & Hvo & Hsnap & Hold & Hnew & Hlen).
    assert (E2 : extends h h') by (eapply extends_trans; eassumption).
    assert (Hvs : valid (h ++ fresh) (seq (length h) (length fresh))).
    { intros l Hl. apply in_seq in Hl. rewrite length_app. lia. }
    exists (item :: seq (length h) (length fresh) ++ out), h'.
    split; [|split; [exact E2|split; [|split; [|split; [|split]]]]].
    + cbn [augment_from]. unfold bind at 1. rewrite read_valid by exact Hi.
      unfold bind at 1. rewrite variations_spec. fold fresh.
      unfold bind at 1. rewrite Hrun. unfold ret.
      unfold fresh. now rewrite length_map.
    + intros l [<-|Hl].
      * destruct E2 as [f ->]. rewrite length_app. lia.
      * apply in_app_or in Hl. destruct Hl as [Hl|Hl]; [|now apply Hvo].
        exact (valid_extends (h ++ fresh) h' _ He Hvs l Hl).
    + change (snapshot h' (item :: seq (length h) (length fresh) ++ out))
        with (get h' item :: map (get h') (seq (length h) (length fresh) ++ out)).
      rewrite map_app.
      change (map (get h') out) with (snapshot h' out).
      change (map (get h') (seq (length h) (length fresh)))
        with (snapshot h' (seq (length h) (length fresh))).
      rewrite (get_extends h h' item E2 Hi).
      rewrite (snapshot_extends (h ++ fresh) h' _ He Hvs), snapshot_fresh.
      rewrite Hsnap, (snapshot_extends h (h ++ fresh) rest E1 Hv).
      reflexivity.
    + intros n Hn Hd. cbn [filter].
      assert (Hin : (item <? n) = true) by (apply Nat.ltb_lt, Hd; now left).
      rewrite Hin, filter_app. f_equal.
      rewrite filter_none.
      * apply Hold; [rewrite length_app; lia|]. intros l Hl. apply Hd. now right.
      * intros l Hl. apply in_seq in Hl. apply Nat.ltb_ge. lia.
    + intros l [<-|Hl] Hge; [lia|].
      apply in_app_or in Hl. destruct Hl as [Hl|Hl].
      * rewrite (get_extends (h ++ fresh) h' l He) by now apply Hvs.
        apply in_seq in Hl.
        apply (successes_bare grid k (prompt (get h item))). fold fresh.
        unfold get. rewrite app_nth2 by lia. apply nth_In. lia.
      * destruct (l <? length (h ++ fresh)) eqn:El.
        { exfalso.
          assert (Hr : In l rest).
          { rewrite <- (Hold (length (h ++ fresh))).
            - apply filter_In. now split.
            - lia.
            - intros x Hx. rewrite length_app. specialize (Hv x Hx). lia. }
          specialize (Hv l Hr). lia. }
        { apply Hnew; [exact Hl|]. now apply Nat.ltb_ge in El. }
    + cbn [length]. rewrite length_app, length_seq.
      assert (Hf : length fresh <= 9).
      { unfold fresh. rewrite length_map.
        etransitivity; [apply successes_length|]. reflexivity. }
      unfold loc in *. lia.
Qed.

Lemma augmentData_values_prompts data :
  forall k o,
    In o (augmentData_values createPromptVariation k data) ->
    In o data \/ bare_prompt o.
Proof.
  induction data as [|x rest IH]; intros k o Ho; [destruct Ho|].
  cbn [augmentData_values] in Ho. destruct Ho as [<-|Ho]; [left; now left|].
  apply in_app_or in Ho. destruct Ho as [Ho|Ho].
  - right. eapply successes_bare. exact Ho.
  - destruct (IH _ _ Ho) as [H|H]; [left; now right | now right].
Qed.

Lemma augmentData_values_silent data :
  (forall k p temp maxTokens, createPromptVariation k p temp maxTokens = None) ->
  forall k, augmentData_values createPromptVariation k data = data.
Proof.
  intros Hnone. induction data as [|x rest IH]; intro k; [reflexivity|].
  cbn [augmentData_values]. rewrite IH.
  assert (S0 : forall g k p, successes createPromptVariation k p g = []).
  { induction g as [|[t m] g IHg]; intros k0 p; simpl; [reflexivity|].
    now rewrite Hnone. }
  now rewrite S0.
Qed.

End Endpoint.

(** X9.  On a store that holds every record of [data], [augmentData]
    returns and only appends to the store.  Its result holds the records
    of [data] themselves (the same objects, in order: they are what is left
    of the result when the new locations are dropped), each followed by
    one new record per variation that came back non-empty, in the order of
    the requests; a new record has a prompt and nothing else.  The result
    has between one and ten records per input record, and when no request
    succeeds it holds the input records as they are. *)
Theorem augmentData_fan_out
    (createPromptVariation : nat -> option Str.t -> float -> nat -> option Str.t)
    (data : list loc) (h : heap) :
  valid h data ->
  exists out h',
    augmentData createPromptVariation data h = (Ok out, h')
    /\ extends h h'
    /\ valid h' out
    /\ snapshot h' out
       = augmentData_values createPromptVariation 0 (snapshot h data)
    /\ filter (old h) out = data
    /\ length data <= length out <= 10 * length data
    /\ (forall l, In l out -> old h l = false -> bare_prompt (get h' l))
    /\ ((forall k p temp maxTokens,
            createPromptVariation k p temp maxTokens = None) ->
        snapshot h' out = snapshot h data).
Proof.
  intro Hv.
  destruct (augment_from_spec createPromptVariation data 0 h Hv)
    as (out & h' & Hrun & He & Hvo & Hsnap & Hold & Hnew & Hlen).
  exists out, h'. split; [exact Hrun|]. split; [exact He|].
  split; [exact Hvo|]. split; [exact Hsnap|].
  split; [apply Hold; [lia | exact Hv]|]. split; [exact Hlen|]. split.
  - intros l Hl Hn. apply Hnew; [exact Hl|].
    unfold old in Hn. now apply Nat.ltb_ge in Hn.
  - intro Hnone. rewrite Hsnap. now apply augmentData_values_silent.
Qed.

Lemma augmentData_fan_out_witness :
  exists out h',
    augmentData Run.echo [0; 1] loaded = (Ok out, h')
    /\ extends loaded h'
    /\ valid h' out
    /\ snapshot h' out = augmentData_values Run.echo 0 (snapshot loaded [0; 1])
    /\ filter (old loaded) out = [0; 1]
    /\ length [0; 1] <= length out <= 10 * length [0; 1]
    /\ (forall l, In l out -> old loaded l = false -> bare_prompt (get h' l))
    /\ ((forall k p temp maxTokens, Run.echo k p temp maxTokens = None) ->
        snapshot h' out = snapshot loaded [0; 1]).
Proof.
  apply (augmentData_fan_out Run.echo [0; 1] loaded).
  intros l Hl. unfold loaded. simpl in Hl. simpl.
  destruct Hl as [<-|[<-|[]]]; lia.
Defined.

End Augment.

(** ** The whole pipeline *)

Module Pipeline.
Import InPlace Store FanOut Run Frame Tally.
#[local] Open Scope store_scope.

Lemma filterM_sub {A} (f : A -> M bool) l :
  forall h out h',
    filterM f l h = (Ok out, h') -> incl out l /\ length out <= length l.
Proof.
  induction l as [|x l IH]; intros h out h' H.
  - injection H as <- <-. split; [apply incl_refl | lia].
  - cbn [filterM] in H. unfold bind at 1 in H.
    destruct (f x h) as [[b|e] h1]; [|discriminate].
    unfold bind at 1 in H.
    destruct (filterM f l h1) as [[xs|e] h2] eqn:E; [|discriminate].
    unfold ret in H. injection H as <- <-.
    destruct (IH _ _ _ E) as [Hi Hl].
    destruct b; split; simpl; try lia.
    + intros y [<-|Hy]; [now left | right; now apply Hi].
    + intros y Hy. right. now apply Hi.
Qed.

(** *** cleanData leaves prompts *)

Lemma cleanData_prompted processedData data h :
  valid h data -> valid h processedData ->
  exists out h',
    cleanData processedData data h = (Ok out, h')
    /\ length h' = length h
    /\ valid h' out
    /\ length out <= length data
    /\ forallb prompted (snapshot h' out) = true.
Proof.
  intros Hd Hp.
  destruct (cleanData_frame processedData data h Hd Hp)
    as (out & h' & Hrun & Hlen & _ & Hin).
  exists out, h'. split; [exact Hrun|]. split; [exact Hlen|]. split; [|split].
  - intros l Hl. rewrite Hlen. apply Hd. now apply Hin.
  - unfold cleanData in Hrun. now apply (filterM_sub _ _ _ _ _ Hrun).
  - apply forallb_forall. intros o Ho. unfold snapshot in Ho.
    apply in_map_iff in Ho. destruct Ho as (l & <- & Hl).
    destruct (Hin l Hl) as (_ & q & Hq).
    rewrite (get_nth_error _ _ _ Hq). reflexivity.
Qed.

Section Endpoint.

Variable createPromptVariation : nat -> option Str.t -> float -> nat -> option Str.t.
Variable chat : nat -> option Str.t -> option Str.t.

(** *** augmentData leaves prompts *)

Lemma augmentData_prompted data h :
  valid h data ->
  forallb prompted (snapshot h data) = true ->
  exists out h',
    augmentData createPromptVariation data h = (Ok out, h')
    /\ extends h h'
    /\ valid h' out
    /\ length out <= 10 * length data
    /\ forallb prompted (snapshot h' out) = true.
Proof.
  intros Hv Hp.
  destruct (Augment.augment_from_spec createPromptVariation data 0 h Hv)
    as (out & h' & Hrun & He & Hvo & Hsnap & _ & _ & Hlen).
  exists out, h'. split; [exact Hrun|]. split; [exact He|].
  split; [exact Hvo|]. split; [lia|].
  rewrite Hsnap. apply forallb_forall. intros o Ho.
  destruct (Augment.augmentData_values_prompts _ _ _ _ Ho) as [Hd|(c & s & ->)].
  - rewrite forallb_forall in Hp. now apply Hp.
  - reflexivity.
Qed.

(** *** getGPT4Responses yields complete records *)

Lemma answers_complete data :
  forallb prompted data = true ->
  forallb complete (DataProcessor.getGPT4Responses chat data) = true
  /\ length (DataProcessor.getGPT4Responses chat data) <= length data.
Proof.
  intro Hp. unfold DataProcessor.getGPT4Responses.
  rewrite Responses.batches_complete by lia.
  cbn [skipn app]. rewrite Responses.non_null_respond_batch. split.
  - apply forallb_forall. intros o Ho. apply in_map_iff in Ho.
    destruct Ho as ([k x] & <- & Hk). apply filter_In in Hk.
    destruct Hk as [Hk Hs]. apply in_combine_r in Hk.
    rewrite forallb_forall in Hp. specialize (Hp x Hk).
    unfold prompted in Hp. unfold complete, Answering.answered. cbn.
    now destruct (prompt x).
  - rewrite length_map. etransitivity; [apply filter_length_le|].
    unfold Answering.indexed_from. rewrite length_combine, length_seq. lia.
Qed.

Lemma getGPT4Responses_complete data h :
  valid h data ->
  forallb prompted (snapshot h data) = true ->
  exists out h',
    getGPT4Responses chat data h = (Ok out, h')
    /\ extends h h'
    /\ valid h' out
    /\ length out <= length data
    /\ forallb complete (snapshot h' out) = true.
Proof.
  intros Hv Hp.
  destruct (batches_refines chat data (length data) 0 [] h Hv)
    as (out & h' & Hrun & He & Hvo & Hs); [intros l []|].
  assert (E : snapshot h' out
              = DataProcessor.getGPT4Responses chat (snapshot h data)).
  { rewrite Hs. unfold DataProcessor.getGPT4Responses.
    unfold snapshot at 3. now rewrite length_map. }
  destruct (answers_complete (snapshot h data) Hp) as [Hc Hl].
  exists out, h'. split; [exact Hrun|]. split; [exact He|].
  split; [exact Hvo|]. split.
  - rewrite <- E in Hl. unfold snapshot in Hl. rewrite !length_map in Hl. exact Hl.
  - now rewrite E.
Qed.

End Endpoint.

(** *** balanceDataset returns on complete records *)

Lemma complete_response o : complete o = true -> response o <> None.
Proof. unfold complete. now destruct (response o). Qed.

Lemma balanceDataset_complete data h :
  valid h data ->
  forallb complete (snapshot h data) = true ->
  exists out,
    balanceDataset data h = (Ok out, h)
    /\ incl out data
    /\ length out <= length data.
Proof.
  intros Hv Hc.
  assert (Hr : forall o, In o (snapshot h data) -> response o <> None).
  { intros o Ho. apply complete_response.
    rewrite forallb_forall in Hc. now apply Hc. }
  pose proof (balanceDataset_refines data h Hv) as R.
  pose proof (reads_only_balanceDataset data h) as S.
  unfold DataProcessor.balanceDataset in R.
  rewrite Balance.mapR_response_length in R by exact Hr. cbv zeta in R.
  rewrite Balance.filterR_band in R by exact Hr.
  destruct (balanceDataset data h) as [[out|e] h1] eqn:E; [|discriminate].
  cbn [snd] in S. subst h1. exists out. split; [reflexivity|].
  unfold balanceDataset in E. unfold bind at 1 in E.
  destruct (mapM response_length data h) as [[lengths|e] h1]; [|discriminate].
  exact (filterM_sub _ _ _ _ _ E).
Qed.

(** *** convertToLLaMAFormat on the store *)

Lemma convertToLLaMAFormat_complete data :
  forall h,
    valid h data ->
    forallb complete (snapshot h data) = true ->
    exists fresh,
      convertToLLaMAFormat data h
      = (Ok (seq (length h) (length data)), h ++ fresh)
      /\ Formatting.convertToLLaMAFormat (snapshot h data) = Ok fresh
      /\ length fresh = length data.
Proof.
  unfold convertToLLaMAFormat, Formatting.convertToLLaMAFormat.
  induction data as [|item rest IH]; intros h Hv Hc.
  - exists []. rewrite app_nil_r. repeat split.
  - apply valid_cons in Hv. destruct Hv as [Hi Hv].
    cbn [snapshot map forallb] in Hc. apply andb_true_iff in Hc.
    destruct Hc as [Hc Hcr]. fold (snapshot h rest) in Hcr.
    unfold complete in Hc.
    destruct (response (get h item)) as [r|] eqn:Er; [|discriminate].
    destruct (prompt (get h item)) as [p|] eqn:Ep; [|discriminate].
    assert (E1 : extends h (h ++ [TrainingRecord p r]))
      by now exists [TrainingRecord p r].
    destruct (IH (h ++ [TrainingRecord p r])) as (fresh & Hrun & Hval & Hlen).
    { now apply (valid_extends h). }
    { now rewrite (snapshot_extends h _ rest E1 Hv). }
    rewrite (snapshot_extends h _ rest E1 Hv) in Hval.
    exists (TrainingRecord p r :: fresh). split; [|split].
    + cbn [mapM]. unfold bind at 1. unfold convert_item at 1.
      unfold bind at 1. rewrite read_valid by exact Hi. rewrite Er, Ep.
      unfold alloc. unfold bind at 1. rewrite Hrun. unfold ret.
      rewrite length_app, <- app_assoc. cbn [length app seq].
      now rewrite Nat.add_1_r.
    + cbn [snapshot map DataProcessor.mapR]. fold (snapshot h rest).
      unfold Formatting.convert_record at 1. rewrite Er, Ep. now rewrite Hval.
    + cbn [length]. now rewrite Hlen.
Qed.

Lemma convert_training data :
  forall out,
    Formatting.convertToLLaMAFormat data = Ok out ->
    forall o, In o out -> is_training_record o.
Proof.
  unfold Formatting.convertToLLaMAFormat.
  induction data as [|i rest IH]; intros out Hconv o Hin.
  - injection Hconv as <-. destruct Hin.
  - simpl in Hconv. unfold Formatting.convert_record at 1 in Hconv.
    destruct (response i) as [r|]; [|discriminate].
    destruct (prompt i) as [p|]; [|discriminate].
    destruct (DataProcessor.mapR Formatting.convert_record rest) as [os|e];
      [|discriminate].
    injection Hconv as <-. destruct Hin as [<-|Hin]; [now exists p, r|].
    now apply (IH os).
Qed.

Lemma incl_valid h (a b : list loc) : incl a b -> valid h b -> valid h a.
Proof. intros Hi Hv l Hl. apply Hv. now apply Hi. Qed.

Lemma incl_forallb {A} (f : A -> bool) (a b : list A) :
  incl a b -> forallb f b = true -> forallb f a = true.
Proof.
  intros Hi Hb. apply forallb_forall. intros x Hx.
  rewrite forallb_forall in Hb. apply Hb. now apply Hi.
Qed.

Section Whole.

Variable createPromptVariation : nat -> option Str.t -> float -> nat -> option Str.t.
Variable chat : nat -> option Str.t -> option Str.t.

(** The stages fit: each one is handed records that have what it reads. *)
Lemma processData_stages processedData rawData h :
  valid h processedData -> valid h rawData ->
  exists h3 balancedData fresh,
    processData createPromptVariation chat processedData rawData h
    = (Ok (seq (length h3) (length balancedData)), h3 ++ fresh)
    /\ length h <= length h3
    /\ length balancedData <= 10 * length rawData
    /\ length fresh = length balancedData
    /\ Formatting.convertToLLaMAFormat (snapshot h3 balancedData) = Ok fresh.
Proof.
  intros Hp Hr.
  destruct (cleanData_prompted processedData rawData h Hr Hp)
    as (out1 & h1 & R1 & L1 & V1 & N1 & P1).
  destruct (augmentData_prompted createPromptVariation out1 h1 V1 P1)
    as (out2 & h2 & R2 & E2 & V2 & N2 & P2).
  destruct (getGPT4Responses_complete chat out2 h2 V2 P2)
    as (out3 & h3 & R3 & E3 & V3 & N3 & C3).
  destruct (balanceDataset_complete out3 h3 V3 C3) as (out4 & R4 & I4 & N4).
  destruct (convertToLLaMAFormat_complete out4 h3
              (incl_valid _ _ _ I4 V3)) as (fresh & R5 & F5 & L5).
  { apply (incl_forallb _ (snapshot h3 out4) (snapshot h3 out3)); [|exact C3].
    unfold snapshot. now apply incl_map. }
  exists h3, out4, fresh. split; [|split; [|split; [|split]]].
  - unfold processData. unfold bind at 1. rewrite R1.
    unfold bind at 1. rewrite R2. unfold bind at 1. rewrite R3.
    unfold bind at 1. rewrite R4. unfold bind at 1. rewrite R5. reflexivity.
  - destruct E2 as [f2 ->]. destruct E3 as [f3 ->].
    rewrite !length_app. lia.
  - unfold loc in *. lia.
  - exact L5.
  - exact F5.
Qed.

End Whole.

(** X10.  On a store that holds the raw records and the records of
    [processedData], and with an endpoint whose completions are strings,
    [processData] never throws: every stage is handed records that have
    the properties it reads.  It returns at most ten records per raw
    record, all of them objects that did not exist before, no object
    twice, each a training record; and [generateDatasetStats] returns on
    what it stores, with [totalExamples] the number of records. *)
Theorem processData_returns
    (createPromptVariation : nat -> option Str.t -> float -> nat -> option Str.t)
    (chat : nat -> option Str.t -> option Str.t)
    (processedData rawData : list loc) (h : heap) :
  valid h processedData ->
  valid h rawData ->
  exists out h',
    processData createPromptVariation chat processedData rawData h = (Ok out, h')
    /\ length out <= 10 * length rawData
    /\ NoDup out
    /\ (forall l, In l out ->
          length h <= l < length h' /\ is_training_record (get h' l))
    /\ exists stats,
         Formatting.generateDatasetStats (snapshot h' out) = Ok stats
         /\ Formatting.totalExamples stats = length out.
Proof.
  intros Hp Hr.
  destruct (processData_stages createPromptVariation chat processedData rawData h Hp Hr)
    as (h3 & balanced & fresh & Hrun & Hlen & Hten & Hfresh & Hconv).
  exists (seq (length h3) (length balanced)), (h3 ++ fresh).
  assert (Hs : snapshot (h3 ++ fresh) (seq (length h3) (length balanced)) = fresh).
  { rewrite <- Hfresh. apply Augment.snapshot_fresh. }
  pose proof (Format.convert_ok _ _ Hconv) as F.
  split; [exact Hrun|]. split; [now rewrite length_seq|].
  split; [apply seq_NoDup|]. split.
  - intros l Hl. apply in_seq in Hl. rewrite length_app, Hfresh.
    split; [lia|].
    assert (Hin : In (get (h3 ++ fresh) l) fresh).
    { rewrite <- Hs at 2. unfold snapshot. apply in_map. apply in_seq. lia. }
    exact (convert_training _ _ Hconv _ Hin).
  - rewrite Hs.
    destruct (Format.stats_counts fresh (Format.formats_has_metadata _ _ F))
      as (stats & Es & Ht & _).
    exists stats. split; [exact Es|]. now rewrite Ht, length_seq.
Qed.

Lemma processData_returns_witness :
  exists out h',
    processData echo reply_k [] [0; 1] loaded = (Ok out, h')
    /\ length out <= 10 * length [0; 1]
    /\ NoDup out
    /\ (forall l, In l out ->
          length loaded <= l < length h' /\ is_training_record (get h' l))
    /\ exists stats,
         Formatting.generateDatasetStats (snapshot h' out) = Ok stats
         /\ Formatting.totalExamples stats = length out.
Proof.
  apply (processData_returns echo reply_k [] [0; 1] loaded).
  - intros l [].
  - intros l Hl. unfold loaded. simpl in Hl. simpl.
    destruct Hl as [<-|[<-|[]]]; lia.
Defined.

(** X11.  Whatever a run of [processData] returned, once it is stored
    in [processedData] the duplicate test of [cleanData] never fires: the
    stored records are training records, which have no prompt, so a later
    [cleanData] keeps every record with a prompt of at least 10 code
    units, also one whose prompt went through an earlier run. *)
Theorem processData_then_cleanData
    (createPromptVariation : nat -> option Str.t -> float -> nat -> option Str.t)
    (chat : nat -> option Str.t -> option Str.t)
    (processedData rawData : list loc) (h h' : heap) (out : list loc)
    (this : DataProcessor.t) (data : list Obj) :
  processData createPromptVariation chat processedData rawData h = (Ok out, h') ->
  DataProcessor.cleanData
    (DataProcessor.saveProcessedData this (snapshot h' out)) data
  = map Cleaning.cleaned (filter Cleaning.long_enough data).
Proof.
  intro Hrun. apply Clean.cleanData_without_stored_prompts.
  unfold processData in Hrun. unfold bind at 1 in Hrun.
  destruct (cleanData processedData rawData h) as [[o1|e] h1]; [|discriminate].
  unfold bind at 1 in Hrun.
  destruct (augmentData createPromptVariation o1 h1) as [[o2|e] h2]; [|discriminate].
  unfold bind at 1 in Hrun.
  destruct (getGPT4Responses chat o2 h2) as [[o3|e] h3]; [|discriminate].
  unfold bind at 1 in Hrun.
  destruct (balanceDataset o3 h3) as [[o4|e] h4]; [|discriminate].
  unfold bind at 1 in Hrun.
  destruct (convertToLLaMAFormat o4 h4) as [[o5|e] h5] eqn:E5; [|discriminate].
  unfold ret in Hrun. injection Hrun as <- <-.
  exact (convertToLLaMAFormat_no_prompt o4 h4 o5 h5 E5).
Qed.

Lemma processData_then_cleanData_witness :
  DataProcessor.cleanData
    (DataProcessor.saveProcessedData DataProcessor.new
       (snapshot
          (snd (processData echo reply_k [] [0; 1] loaded))
          [5; 6]))
    Cleaning.duplicated
  = map Cleaning.cleaned (filter Cleaning.long_enough Cleaning.duplicated).
Proof.
  apply (processData_then_cleanData echo reply_k [] [0; 1] loaded).
  vm_compute. reflexivity.
Defined.

End Pipeline.

(** ** What a run of trainingLoop leaves behind *)

Module Runs.
Import ModelTrainer Improvement.

Lemma ascending_from_le e e' cs :
  e' <= e -> ascending_from e cs = true -> ascending_from e' cs = true.
Proof.
  destruct cs as [|c rest]; [reflexivity|]. cbn [ascending_from].
  intros Hle H. apply andb_true_iff in H. destruct H as [H1 H2].
  apply Nat.leb_le in H1. rewrite H2, andb_true_r. apply Nat.leb_le. lia.
Qed.

Lemma adjustLearningRate_warmup epoch validationLoss this :
  epoch <= warmupSteps (trainingConfig this) ->
  adjustLearningRate epoch validationLoss this = this.
Proof.
  intro H. unfold adjustLearningRate.
  destruct (warmupSteps (trainingConfig this) <? epoch) eqn:E; [|reflexivity].
  apply Nat.ltb_lt in E. lia.
Qed.

Lemma adjust_config epoch validationLoss this :
  trainingConfig (adjustLearningRate epoch validationLoss this) = trainingConfig this.
Proof. apply Schedule.adjustLearningRate_keeps. Qed.

Lemma adjust_checkpoints epoch validationLoss this :
  checkpoints (adjustLearningRate epoch validationLoss this) = checkpoints this.
Proof. apply Schedule.adjustLearningRate_keeps. Qed.

Lemma adjust_trained epoch validationLoss this :
  trained (adjustLearningRate epoch validationLoss this) = trained this.
Proof. apply Schedule.adjustLearningRate_keeps. Qed.

Section Run.

Variable validateEpoch : nat -> EpochMetrics.

Lemma loop_checkpoints remaining :
  forall epoch l this,
    exists added,
      checkpoints (snd (loop validateEpoch remaining epoch l this))
      = checkpoints this ++ added
      /\ descending_from (bestLoss l) added = true
      /\ ascending_from epoch added = true
      /\ bestLoss (fst (loop validateEpoch remaining epoch l this))
         = last_loss (bestLoss l) added
      /\ Forall (fun c => ck_metrics c = validateEpoch (ck_epoch c)
                          /\ ck_config c = trainingConfig this
                          /\ ck_epoch c < epoch + remaining) added
      /\ trainingConfig (snd (loop validateEpoch remaining epoch l this))
         = trainingConfig this.
Proof.
  induction remaining as [|remaining IH]; intros epoch l this.
  - exists []. cbn. rewrite app_nil_r. repeat split. constructor.
  - cbn [loop]. unfold epoch_body.
    destruct (Num.lt (loss (validateEpoch epoch)) (bestLoss l)) eqn:E.
    + set (this' := adjustLearningRate epoch (loss (validateEpoch epoch))
                      (saveCheckpoint epoch (validateEpoch epoch)
                         (run_epoch epoch this))).
      destruct (IH (S epoch) (mkLocals (loss (validateEpoch epoch)) 0) this')
        as (added & Hc & Hd & Ha & Hb & Hf & Ht).
      assert (Tc : trainingConfig this' = trainingConfig this).
      { unfold this'. now rewrite adjust_config. }
      assert (Cc : checkpoints this'
                   = checkpoints this
                     ++ [mkCheckpoint epoch (validateEpoch epoch) (trainingConfig this)]).
      { unfold this'. now rewrite adjust_checkpoints. }
      exists (mkCheckpoint epoch (validateEpoch epoch) (trainingConfig this) :: added).
      split; [|split; [|split; [|split; [|split]]]].
      * rewrite Hc, Cc, <- app_assoc. reflexivity.
      * cbn [descending_from ck_metrics]. rewrite E. exact Hd.
      * cbn [ascending_from ck_epoch]. rewrite Nat.leb_refl. exact Ha.
      * rewrite Hb. reflexivity.
      * constructor.
        { cbn. repeat split. lia. }
        { eapply Forall_impl; [|exact Hf]. cbn beta.
          intros c (H1 & H2 & H3). rewrite Tc in H2. repeat split; auto. lia. }
      * now rewrite Ht.
    + cbn [patienceCount].
      destruct (maxPatience <=? S (patienceCount l)).
      * exists []. cbn. rewrite app_nil_r. repeat split. constructor.
      * set (this' := adjustLearningRate epoch (loss (validateEpoch epoch))
                        (run_epoch epoch this)).
        destruct (IH (S epoch) (mkLocals (bestLoss l) (S (patienceCount l))) this')
          as (added & Hc & Hd & Ha & Hb & Hf & Ht).
        assert (Tc : trainingConfig this' = trainingConfig this).
        { unfold this'. now rewrite adjust_config. }
        assert (Cc : checkpoints this' = checkpoints this).
        { unfold this'. now rewrite adjust_checkpoints. }
        exists added. split; [|split; [|split; [|split; [|split]]]].
        { now rewrite Hc, Cc. }
        { exact Hd. }
        { apply (ascending_from_le (S epoch)); [lia | exact Ha]. }
        { exact Hb. }
        { eapply Forall_impl; [|exact Hf]. cbn beta.
          intros c (H1 & H2 & H3). rewrite Tc in H2. repeat split; auto. lia. }
        { now rewrite Ht. }
Qed.

(** While no epoch improves, the loop counts: it runs until the patience
    is used up or the epochs are, and saves nothing. *)
Lemma loop_without_improvement remaining :
  forall epoch count this,
    count < maxPatience ->
    (forall e, epoch <= e < epoch + remaining ->
               Num.lt (loss (validateEpoch e)) infinity = false) ->
    trained (snd (loop validateEpoch remaining epoch (mkLocals infinity count) this))
    = trained this ++ seq epoch (Nat.min remaining (maxPatience - count))
    /\ checkpoints (snd (loop validateEpoch remaining epoch
                              (mkLocals infinity count) this))
       = checkpoints this
    /\ fst (loop validateEpoch remaining epoch (mkLocals infinity count) this)
       = mkLocals infinity (count + Nat.min remaining (maxPatience - count)).
Proof.
  unfold maxPatience.
  induction remaining as [|remaining IH]; intros epoch count this Hc Hno.
  - cbn. rewrite app_nil_r, Nat.add_0_r. repeat split.
  - cbn [loop]. unfold epoch_body. cbn [bestLoss patienceCount].
    rewrite Hno by lia. unfold maxPatience.
    destruct (3 <=? S count) eqn:E.
    + apply Nat.leb_le in E. assert (count = 2) by lia. subst count.
      cbn. rewrite Nat.min_0_r. repeat split.
    + apply Nat.leb_gt in E.
      set (this' := adjustLearningRate epoch (loss (validateEpoch epoch))
                      (run_epoch epoch this)).
      destruct (IH (S epoch) (S count) this') as (Ht & Hk & Hl); [lia| |].
      { intros e He. apply Hno. lia. }
      rewrite Ht, Hk, Hl. unfold this'.
      rewrite adjust_checkpoints, adjust_trained.
      cbn [run_epoch trained checkpoints].
      replace (Nat.min (S remaining) (3 - count))
        with (S (Nat.min remaining (3 - S count))) by lia.
      cbn [seq]. rewrite <- app_assoc. repeat split. f_equal. lia.
Qed.

Lemma loop_warmup remaining :
  forall epoch l this,
    epoch + remaining <= S (warmupSteps (trainingConfig this)) ->
    optimizer_learningRate (snd (loop validateEpoch remaining epoch l this))
    = optimizer_learningRate this.
Proof.
  induction remaining as [|remaining IH]; intros epoch l this Hw; [reflexivity|].
  cbn [loop]. unfold epoch_body.
  destruct (Num.lt (loss (validateEpoch epoch)) (bestLoss l)).
  - rewrite adjustLearningRate_warmup by (cbn; lia).
    rewrite IH by (cbn; lia). reflexivity.
  - destruct (maxPatience <=? _); [reflexivity|].
    rewrite adjustLearningRate_warmup by (cbn; lia).
    rewrite IH by (cbn; lia). reflexivity.
Qed.

End Run.

(** X12.  The checkpoints that a run of [trainingLoop] saves are
    strictly improving: each has a validation loss strictly below the
    loss of the checkpoint saved before it (the first is below
    [Infinity]), and their epochs strictly increase, so no checkpoint
    directory is written twice.  Each holds the metrics validation
    reported in its epoch and the configuration of the trainer, which the
    loop never changes.  [bestLoss] ends as the loss of the checkpoint
    saved last: the newest checkpoint is the best one. *)
Theorem trainingLoop_checkpoints_improve
    (validateEpoch : nat -> EpochMetrics) (epochs : nat) (this : ModelTrainer.t) :
  exists added,
    checkpoints (snd (trainingLoop validateEpoch epochs this))
    = checkpoints this ++ added
    /\ descending_from infinity added = true
    /\ ascending_from 1 added = true
    /\ bestLoss (fst (trainingLoop validateEpoch epochs this))
       = last_loss infinity added
    /\ Forall (fun c => ck_metrics c = validateEpoch (ck_epoch c)
                        /\ ck_config c = trainingConfig this
                        /\ ck_epoch c <= epochs) added
    /\ trainingConfig (snd (trainingLoop validateEpoch epochs this))
       = trainingConfig this.
Proof.
  unfold trainingLoop.
  destruct (loop_checkpoints validateEpoch epochs 1 (mkLocals infinity 0) this)
    as (added & Hc & Hd & Ha & Hb & Hf & Ht).
  exists added. repeat (split; [assumption|]). split; [|exact Ht].
  eapply Forall_impl; [|exact Hf]. cbn beta.
  intros c (H1 & H2 & H3). repeat split; auto. lia.
Qed.

(** X13.  When validation never reports a loss below [Infinity] (the
    loss is [NaN], as it is for an empty validation set, or [Infinity]),
    [trainingLoop] runs exactly three epochs, or all of them when there
    are fewer, and saves no checkpoint; [bestLoss] is still
    [Infinity]. *)
Theorem trainingLoop_never_improving
    (validateEpoch : nat -> EpochMetrics) (epochs : nat) (this : ModelTrainer.t) :
  never_below_infinity validateEpoch epochs ->
  trained (snd (trainingLoop validateEpoch epochs this))
  = trained this ++ seq 1 (Nat.min epochs 3)
  /\ checkpoints (snd (trainingLoop validateEpoch epochs this)) = checkpoints this
  /\ fst (trainingLoop validateEpoch epochs this)
     = mkLocals infinity (Nat.min epochs 3).
Proof.
  intro H. unfold trainingLoop.
  destruct (loop_without_improvement validateEpoch epochs 1 0 this)
    as (Ht & Hc & Hl).
  - unfold maxPatience. lia.
  - intros e He. apply H. lia.
  - now rewrite Ht, Hc, Hl.
Qed.

Lemma trainingLoop_never_improving_witness :
  trained (snd (trainingLoop (fun _ => Training.validateEpoch []) 10 new))
  = trained new ++ seq 1 (Nat.min 10 3)
  /\ checkpoints (snd (trainingLoop (fun _ => Training.validateEpoch []) 10 new))
     = checkpoints new
  /\ fst (trainingLoop (fun _ => Training.validateEpoch []) 10 new)
     = mkLocals infinity (Nat.min 10 3).
Proof.
  apply (trainingLoop_never_improving (fun _ => Training.validateEpoch []) 10 new).
  intros e He. vm_compute. reflexivity.
Defined.

(** X14.  A run of at most [warmupSteps] epochs never touches the
    learning rate of the optimizer: it ends as it began, whatever
    validation reports.  With the constructor's 500 warm-up steps this
    covers every run of up to 500 epochs. *)
Theorem trainingLoop_keeps_rate_in_warmup
    (validateEpoch : nat -> EpochMetrics) (epochs : nat) (this : ModelTrainer.t) :
  epochs <= warmupSteps (trainingConfig this) ->
  optimizer_learningRate (snd (trainingLoop validateEpoch epochs this))
  = optimizer_learningRate this.
Proof.
  intro H. unfold trainingLoop. apply loop_warmup. lia.
Qed.

Lemma trainingLoop_keeps_rate_in_warmup_witness :
  optimizer_learningRate (snd (trainingLoop Patience.synthetic 500 new))
  = optimizer_learningRate new.
Proof.
  apply (trainingLoop_keeps_rate_in_warmup Patience.synthetic 500 new).
  cbn. lia.
Defined.

End Runs.

(** ** The data sets and the passes of ModelTrainer *)

Module TrainingFacts.
Import ModelTrainer Training Progress.

(** *** The split *)





(** *** The token sequences *)

Lemma tl_removelast {A} (l : list A) : tl (removelast l) = removelast (tl l).
Proof. destruct l as [|a [|b l]]; reflexivity. Qed.

Lemma length_removelast {A} (l : list A) : length (removelast l) = length l - 1.
Proof.
  induction l as [|a [|b l] IH]; [reflexivity|reflexivity|].
  change (removelast (a :: b :: l)) with (a :: removelast (b :: l)).
  cbn [length] in *. lia.
Qed.

Lemma length_tl {A} (l : list A) : length (tl l) = length l - 1.
Proof. destruct l; simpl; lia. Qed.

Section Tokens.

Variable random : nat -> float.

Lemma tokenize_from_shape this data :
  forall k,
    length (fst (tokenize_from random this k data)) = length data
    /\ length (snd (tokenize_from random this k data)) = length data
    /\ Forall (fun t => length t = maxSeqLength (trainingConfig this) - 1)
              (fst (tokenize_from random this k data))
    /\ Forall (fun t => length t = maxSeqLength (trainingConfig this) - 1)
              (snd (tokenize_from random this k data))
    /\ Forall2 (fun input target => tl input = removelast target)
               (fst (tokenize_from random this k data))
               (snd (tokenize_from random this k data)).
Proof.
  induction data as [|item rest IH]; intro k.
  - cbn. repeat split; constructor.
  - cbn [tokenize_from].
    specialize (IH (k + maxSeqLength (trainingConfig this))).
    destruct (tokenize_from random this (k + maxSeqLength (trainingConfig this)) rest)
      as [inputs targets].
    cbn [fst snd] in *. destruct IH as (L1 & L2 & F1 & F2 & A).
    assert (T : length (tokens_from random k (maxSeqLength (trainingConfig this)))
                = maxSeqLength (trainingConfig this)).
    { unfold tokens_from. now rewrite length_map, length_seq. }
    split; [cbn [length]; now rewrite L1|].
    split; [cbn [length]; now rewrite L2|].
    split; [constructor; [now rewrite length_removelast, T | exact F1]|].
    split; [constructor; [now rewrite length_tl, T | exact F2]|].
    constructor; [apply tl_removelast | exact A].
Qed.

Lemma tokenize_from_text this data :
  forall data' k,
    length data' = length data ->
    tokenize_from random this k data' = tokenize_from random this k data.
Proof.
  induction data as [|item rest IH]; intros [|item' rest'] k H;
    try discriminate; [reflexivity|].
  cbn [tokenize_from]. rewrite (IH rest') by (cbn [length] in H; lia).
  reflexivity.
Qed.

End Tokens.

(** X16.  [tokenizeAndPadSequences] yields one input and one target
    sequence per record, each of [maxSeqLength - 1] tokens, the target
    being the input shifted by one token (the input without its first
    token is the target without its last).  The sequences do not depend
    on the records: two data sets of the same size get the same sequences
    from the same random numbers, whatever their texts. *)
Theorem tokenizeAndPadSequences_shape
    (random : nat -> float) (this : ModelTrainer.t) (data : list Obj) :
  length (fst (tokenizeAndPadSequences random this data)) = length data
  /\ length (snd (tokenizeAndPadSequences random this data)) = length data
  /\ Forall (fun t => length t = maxSeqLength (trainingConfig this) - 1)
            (fst (tokenizeAndPadSequences random this data))
  /\ Forall (fun t => length t = maxSeqLength (trainingConfig this) - 1)
            (snd (tokenizeAndPadSequences random this data))
  /\ Forall2 (fun input target => tl input = removelast target)
             (fst (tokenizeAndPadSequences random this data))
             (snd (tokenizeAndPadSequences random this data))
  /\ (forall data',
        length data' = length data ->
        tokenizeAndPadSequences random this data'
        = tokenizeAndPadSequences random this data).
Proof.
  unfold tokenizeAndPadSequences.
  destruct (tokenize_from_shape random this data 0) as (L1 & L2 & F1 & F2 & A).
  repeat (split; [assumption|]).
  intros data' H. now apply tokenize_from_text.
Qed.

(** *** The passes over the batches *)





End TrainingFacts.
